(** * Underwater photo editor: pixel pipeline and curve widget

    A shallow embedding of [src/App.tsx] (the per-pixel adjustment loop of
    [applyAdjustments]) and of [src/components/CurveEditor.tsx] (coordinate
    mapping, hit-testing and the pointer handlers).

    JavaScript numbers are IEEE 754 binary64 values; they are modelled by
    Rocq's primitive floats, which are binary64 as well, so every arithmetic
    expression below evaluates to the very bits the source produces. *)

From Stdlib Require Import ZArith List Bool Floats Lia.
From Stdlib Require Uint63.
Import ListNotations.
#[local] Set Warnings "-inexact-float".

Local Open Scope float_scope.

(** ** JavaScript numbers *)

Module JS.

(** [a !== b] on numbers: IEEE inequality (so [-0 !== 0] is false and
    [NaN !== 0] is true). *)
Definition neq (a b : float) : bool := negb (a =? b).

(** [Math.max(a, b)]: NaN if either argument is NaN, and [+0] is larger
    than [-0]. *)
Definition max (a b : float) : float :=
  if is_nan a || is_nan b then nan
  else if a <? b then b
  else if b <? a then a
  else if get_sign a then b else a.

(** [Math.min(a, b)]: NaN if either argument is NaN, and [-0] is smaller
    than [+0]. *)
Definition min (a b : float) : float :=
  if is_nan a || is_nan b then nan
  else if a <? b then a
  else if b <? a then b
  else if get_sign a then a else b.

(** A small non-negative integer as a number (array indices, bytes);
    exact below 2^53. *)
Definition of_Z (z : Z) : float := of_uint63 (Uint63.of_Z z).
Definition of_nat (n : nat) : float := of_Z (Z.of_nat n).

(** [ToUint8Clamp], the conversion applied by a store into a
    [Uint8ClampedArray]: NaN becomes 0, the value is clamped to [0,255]
    and rounded to the nearest integer, ties to even.  It is computed
    exactly on the mantissa and exponent of the number. *)
Definition ToUint8Clamp (x : float) : Z :=
  match Prim2SF x with
  | S754_nan => 0
  | S754_zero _ => 0
  | S754_infinity s => if s then 0 else 255
  | S754_finite true _ _ => 0
  | S754_finite false m e =>
      if (0 <=? e)%Z then Z.min 255 (Z.pos m * 2 ^ e)
      else
        let d := (2 ^ (- e))%Z in
        let f := (Z.pos m / d)%Z in
        let twice := (2 * (Z.pos m mod d))%Z in
        if (255 <=? f)%Z then 255
        else if (twice <? d)%Z then f
        else if (d <? twice)%Z then (f + 1)%Z
        else if Z.even f then f else (f + 1)%Z
  end.

(** [a[i] = v] on an array of numbers.  Inside the array the element is
    replaced; past its end JavaScript extends the array, and the skipped
    positions (holes, which read as [undefined]) are written as NaN. *)
Fixpoint array_set (a : list float) (i : nat) (v : float) : list float :=
  match a, i with
  | [], O => [v]
  | [], S i' => nan :: array_set [] i' v
  | _ :: rest, O => v :: rest
  | x :: rest, S i' => x :: array_set rest i' v
  end.

End JS.

(** ** The adjustment record ([interface ColorAdjustments]) *)

Record ColorAdjustments : Set := mkAdjustments {
  temperature : float;
  tint : float;
  contrast : float;
  saturation : float;
  highlights : float;
  midtones : float;
  shadows : float;
  whites : float;
  blacks : float;
  redCurve : list float;
  greenCurve : list float;
  blueCurve : list float;
  rgbCurve : list float;
  selectiveRed : float;
  selectiveOrange : float;
  selectiveYellow : float;
  selectiveGreen : float;
  selectiveCyan : float;
  selectiveBlue : float;
  selectiveMagenta : float;
  saturationRed : float;
  saturationOrange : float;
  saturationYellow : float;
  saturationGreen : float;
  saturationCyan : float;
  saturationBlue : float;
  saturationMagenta : float
}.

Definition identityCurve : list float := [0; 25; 50; 75; 100].

Definition defaultAdjustments : ColorAdjustments :=
  {| temperature := 0; tint := 0; contrast := 0; saturation := 0;
     highlights := 0; midtones := 0; shadows := 0; whites := 0; blacks := 0;
     redCurve := identityCurve; greenCurve := identityCurve;
     blueCurve := identityCurve; rgbCurve := identityCurve;
     selectiveRed := 0; selectiveOrange := 0; selectiveYellow := 0;
     selectiveGreen := 0; selectiveCyan := 0; selectiveBlue := 0;
     selectiveMagenta := 0;
     saturationRed := 0; saturationOrange := 0; saturationYellow := 0;
     saturationGreen := 0; saturationCyan := 0; saturationBlue := 0;
     saturationMagenta := 0 |}.

(** ** The per-pixel loop of [applyAdjustments] (App.tsx, lines 174-234) *)

(** The three working variables [r], [g], [b] of one loop iteration. *)
Definition rgb : Set := (float * float * float)%type.

(** [Math.min(255, Math.max(0, e))]. *)
Definition clamp255 (e : float) : float := JS.min 255 (JS.max 0 e).

Definition luminanceOf (p : rgb) : float :=
  let '(r, g, b) := p in 0.299 * r + 0.587 * g + 0.114 * b.

Definition stepTemperature (adj : ColorAdjustments) (p : rgb) : rgb :=
  let '(r, g, b) := p in
  if JS.neq (temperature adj) 0 then
    let temp := temperature adj / 100 in
    (clamp255 (r + temp * 30), g, clamp255 (b - temp * 30))
  else p.

Definition stepTint (adj : ColorAdjustments) (p : rgb) : rgb :=
  let '(r, g, b) := p in
  if JS.neq (tint adj) 0 then
    let tint := tint adj / 100 in
    (r, clamp255 (g + tint * 30), b)
  else p.

Definition stepContrast (adj : ColorAdjustments) (p : rgb) : rgb :=
  let '(r, g, b) := p in
  if JS.neq (contrast adj) 0 then
    let contrast := (contrast adj / 100) * 2.55 in
    let factor := (259 * (contrast + 255)) / (255 * (259 - contrast)) in
    (clamp255 (factor * (r - 128) + 128),
     clamp255 (factor * (g - 128) + 128),
     clamp255 (factor * (b - 128) + 128))
  else p.

Definition stepSaturation (adj : ColorAdjustments) (p : rgb) : rgb :=
  let '(r, g, b) := p in
  if JS.neq (saturation adj) 0 then
    let sat := 1 + (saturation adj / 100) in
    let gray := luminanceOf p in
    (clamp255 (gray + sat * (r - gray)),
     clamp255 (gray + sat * (g - gray)),
     clamp255 (gray + sat * (b - gray)))
  else p.

(** The three luminance bands of the last step. *)
Inductive Zone : Set := Highlights | Midtones | Shadows.

(** Which branch of the [if / else if / else if] chain is taken, if any,
    for a normalized luminance. *)
Definition zoneOf (adj : ColorAdjustments) (normalizedLum : float)
  : option Zone :=
  if (0.7 <? normalizedLum) && JS.neq (highlights adj) 0 then Some Highlights
  else if (0.3 <=? normalizedLum) && (normalizedLum <=? 0.7)
          && JS.neq (midtones adj) 0 then Some Midtones
  else if (normalizedLum <? 0.3) && JS.neq (shadows adj) 0 then Some Shadows
  else None.

(** The [factor] computed inside the branch of a zone. *)
Definition zoneFactor (adj : ColorAdjustments) (z : Zone) : float :=
  match z with
  | Highlights => 1 + (highlights adj / 100)
  | Midtones => 1 + (midtones adj / 100)
  | Shadows => 1 + (shadows adj / 100)
  end.

Definition scaleRgb (factor : float) (p : rgb) : rgb :=
  let '(r, g, b) := p in
  (clamp255 (r * factor), clamp255 (g * factor), clamp255 (b * factor)).

Definition normalizedLumOf (p : rgb) : float := luminanceOf p / 255.

Definition stepZones (adj : ColorAdjustments) (p : rgb) : rgb :=
  match zoneOf adj (normalizedLumOf p) with
  | Some z => scaleRgb (zoneFactor adj z) p
  | None => p
  end.

(** One iteration of the loop body, between the three loads and the three
    stores. *)
Definition adjustPixel (adj : ColorAdjustments) (p : rgb) : rgb :=
  stepZones adj
    (stepSaturation adj (stepContrast adj (stepTint adj (stepTemperature adj p)))).

(** The loop [for (let i = 0; i < data.length; i += 4)] over the flat
    [Uint8ClampedArray].  Elements are bytes, kept as [Z].  An [ImageData]
    always has [4 * width * height] elements; for other lengths a read past
    the end gives [undefined], which every arithmetic step turns into NaN,
    and a store past the end is dropped. *)
Fixpoint pixelLoop (adj : ColorAdjustments) (data : list Z) : list Z :=
  match data with
  | [] => []
  | [r] =>
      let '(r', _, _) := adjustPixel adj (JS.of_Z r, nan, nan) in
      [JS.ToUint8Clamp r']
  | [r; g] =>
      let '(r', g', _) := adjustPixel adj (JS.of_Z r, JS.of_Z g, nan) in
      [JS.ToUint8Clamp r'; JS.ToUint8Clamp g']
  | [r; g; b] =>
      let '(r', g', b') := adjustPixel adj (JS.of_Z r, JS.of_Z g, JS.of_Z b) in
      [JS.ToUint8Clamp r'; JS.ToUint8Clamp g'; JS.ToUint8Clamp b']
  | r :: g :: b :: a :: rest =>
      let '(r', g', b') := adjustPixel adj (JS.of_Z r, JS.of_Z g, JS.of_Z b) in
      JS.ToUint8Clamp r' :: JS.ToUint8Clamp g' :: JS.ToUint8Clamp b' :: a
        :: pixelLoop adj rest
  end.

(** ** The render step ([applyAdjustments], App.tsx, lines 157-240) *)

(** A decoded image or the pixel store of the canvas: dimensions and the
    flat RGBA bytes. *)
Record Bitmap : Set := mkBitmap {
  width : Z;
  height : Z;
  data : list Z
}.

(** [image] is the decoded source image, [None] when no image is loaded (the
    early [return]) or when it never decodes ([onload] does not fire).  The
    canvas element and its 2D context are taken to exist.  [onload] resizes
    the canvas to the image and draws the image on it; unless [showBefore]
    is set, the pixels are then read back, run through the loop and written
    to the canvas again. *)
Definition applyAdjustments (image : option Bitmap) (showBefore : bool)
    (adjustments : ColorAdjustments) (canvas : Bitmap) : Bitmap :=
  match image with
  | None => canvas
  | Some img =>
      let drawn := mkBitmap (width img) (height img) (data img) in
      if negb showBefore then
        mkBitmap (width drawn) (height drawn)
                 (pixelLoop adjustments (data drawn))
      else drawn
  end.

(** [{ ...defaultAdjustments, temperature, tint, contrast, saturation,
    highlights, midtones, shadows }]: the defaults with the seven basic
    controls replaced. *)
Definition withBasic (t ti c s h m sh : float) : ColorAdjustments :=
  {| temperature := t; tint := ti; contrast := c; saturation := s;
     highlights := h; midtones := m; shadows := sh;
     whites := whites defaultAdjustments;
     blacks := blacks defaultAdjustments;
     redCurve := redCurve defaultAdjustments;
     greenCurve := greenCurve defaultAdjustments;
     blueCurve := blueCurve defaultAdjustments;
     rgbCurve := rgbCurve defaultAdjustments;
     selectiveRed := 0; selectiveOrange := 0; selectiveYellow := 0;
     selectiveGreen := 0; selectiveCyan := 0; selectiveBlue := 0;
     selectiveMagenta := 0;
     saturationRed := 0; saturationOrange := 0; saturationYellow := 0;
     saturationGreen := 0; saturationCyan := 0; saturationBlue := 0;
     saturationMagenta := 0 |}.

(** ** Buffers of bytes *)

Definition isByte (v : Z) : Prop := (0 <= v <= 255)%Z.

(** What a [Uint8ClampedArray] can hold. *)
Definition validBuffer (data : list Z) : Prop := Forall isByte data.

(** A control is within the range of its slider. *)
Definition inSlider (c : float) : bool := (-100 <=? c) && (c <=? 100).

(** [x] is NaN or lies in the closed interval [lo, hi]. *)
Definition inRange (lo hi x : float) : bool :=
  is_nan x || ((lo <=? x) && (x <=? hi)).

(** ** Vocabulary of the statements on the pixel loop *)

(** The luminance condition of a zone's branch. *)
Definition inBand (z : Zone) (normalizedLum : float) : bool :=
  match z with
  | Highlights => 0.7 <? normalizedLum
  | Midtones => (0.3 <=? normalizedLum) && (normalizedLum <=? 0.7)
  | Shadows => normalizedLum <? 0.3
  end.

(** The control tested by a zone's branch. *)
Definition zoneControl (adj : ColorAdjustments) (z : Zone) : float :=
  match z with
  | Highlights => highlights adj
  | Midtones => midtones adj
  | Shadows => shadows adj
  end.

(** The three working variables are each NaN or within [0, 255]. *)
Definition rgbInRange (p : rgb) : bool :=
  let '(r, g, b) := p in
  inRange 0 255 r && inRange 0 255 g && inRange 0 255 b.

(** At most one of the seven controls read by the loop is nonzero, and
    every one of them is within the slider range [-100, 100]. *)
Definition singleControl (adj : ColorAdjustments) : Prop :=
  let cs := [temperature adj; tint adj; contrast adj; saturation adj;
             highlights adj; midtones adj; shadows adj] in
  (length (filter (fun c => JS.neq c 0) cs) <= 1)%nat /\
  forallb inSlider cs = true.

(** The black and the white pixel under each control at +100 and -100. *)
Definition boundaryBuffer : list Z := [0; 0; 0; 255; 255; 255; 255; 255]%Z.

Definition extremeControls : list ColorAdjustments :=
  [ withBasic 100 0 0 0 0 0 0; withBasic (-100) 0 0 0 0 0 0;
    withBasic 0 100 0 0 0 0 0; withBasic 0 (-100) 0 0 0 0 0;
    withBasic 0 0 100 0 0 0 0; withBasic 0 0 (-100) 0 0 0 0;
    withBasic 0 0 0 100 0 0 0; withBasic 0 0 0 (-100) 0 0 0;
    withBasic 0 0 0 0 100 0 0; withBasic 0 0 0 0 (-100) 0 0;
    withBasic 0 0 0 0 0 100 0; withBasic 0 0 0 0 0 (-100) 0;
    withBasic 0 0 0 0 0 0 100; withBasic 0 0 0 0 0 0 (-100) ].

(** The two records agree on the seven controls the loop reads. *)
Definition agreeOnWired (a1 a2 : ColorAdjustments) : Prop :=
  temperature a1 = temperature a2 /\ tint a1 = tint a2 /\
  contrast a1 = contrast a2 /\ saturation a1 = saturation a2 /\
  highlights a1 = highlights a2 /\ midtones a1 = midtones a2 /\
  shadows a1 = shadows a2.

(** A record differing from the "Deep Sea" preset only in fields the loop
    does not read. *)
Definition deepSea : ColorAdjustments :=
  {| temperature := 25; tint := -15; contrast := 30; saturation := 15;
     highlights := -25; midtones := 0; shadows := 35; whites := 0;
     blacks := 0;
     redCurve := identityCurve; greenCurve := identityCurve;
     blueCurve := identityCurve; rgbCurve := identityCurve;
     selectiveRed := 0; selectiveOrange := 0; selectiveYellow := 0;
     selectiveGreen := 0; selectiveCyan := -25; selectiveBlue := -30;
     selectiveMagenta := 0;
     saturationRed := 40; saturationOrange := 0; saturationYellow := 20;
     saturationGreen := 0; saturationCyan := 0; saturationBlue := 0;
     saturationMagenta := 0 |}.

Definition deepSeaRewired : ColorAdjustments :=
  {| temperature := 25; tint := -15; contrast := 30; saturation := 15;
     highlights := -25; midtones := 0; shadows := 35; whites := 80;
     blacks := -60;
     redCurve := [100; 75; 50; 25; 0]; greenCurve := [0; 0; 0; 0; 0];
     blueCurve := [100; 100; 100; 100; 100]; rgbCurve := [0; 90; 10; 75; 3];
     selectiveRed := 11; selectiveOrange := -12; selectiveYellow := 13;
     selectiveGreen := -14; selectiveCyan := 15; selectiveBlue := -16;
     selectiveMagenta := 17;
     saturationRed := -100; saturationOrange := 100; saturationYellow := -1;
     saturationGreen := 2; saturationCyan := -3; saturationBlue := 4;
     saturationMagenta := -5 |}.

(** ** The curve widget (components/CurveEditor.tsx) *)

Module CurveEditor.

Record Point : Set := mkPoint { x : float; y : float }.

Definition CANVAS_SIZE : float := 200.
Definition PADDING : float := 20.

(** Curve values (0-100) to canvas coordinates. *)
Definition valueToCanvas (value : float) (isY : bool) : float :=
  let normalized := value / 100 in
  if isY then
    CANVAS_SIZE - PADDING - normalized * (CANVAS_SIZE - 2 * PADDING)
  else PADDING + normalized * (CANVAS_SIZE - 2 * PADDING).

(** Canvas coordinates to curve values (0-100). *)
Definition canvasToValue (coord : float) (isY : bool) : float :=
  if isY then
    let normalized :=
      (CANVAS_SIZE - PADDING - coord) / (CANVAS_SIZE - 2 * PADDING) in
    JS.max 0 (JS.min 100 (normalized * 100))
  else
    let normalized := (coord - PADDING) / (CANVAS_SIZE - 2 * PADDING) in
    JS.max 0 (JS.min 100 (normalized * 100)).

(** [curve.map((y, index) => ...)], with the running [index]. *)
Fixpoint curvePointsFrom (index : nat) (curve : list float) : list Point :=
  match curve with
  | [] => []
  | v :: rest =>
      {| x := valueToCanvas (JS.of_nat index * 25) false;
         y := valueToCanvas v true |}
        :: curvePointsFrom (S index) rest
  end.

Definition getCurvePoints (curve : list float) : list Point :=
  curvePointsFrom 0 curve.

(** [Math.sqrt((x - point.x) ** 2 + (y - point.y) ** 2)] for a pointer at
    [(mx, my)]; the square [e ** 2] is the product [e * e]. *)
Definition distance (mx my : float) (point : Point) : float :=
  sqrt ((mx - x point) * (mx - x point) + (my - y point) * (my - y point)).

(** The test [distance <= 8] of both loops. *)
Definition isHit (mx my : float) (point : Point) : bool :=
  distance mx my point <=? 8.

(** [canvas.style.cursor]; [CursorUnset] before any handler has set it. *)
Inductive Cursor : Set := CursorUnset | CursorDefault | CursorPointer.

(** The three [useState] cells and the cursor style. *)
Record State : Set := mkState {
  isDragging : bool;
  dragIndex : Z;
  hoveredIndex : Z;
  cursor : Cursor
}.

Definition initialState : State :=
  {| isDragging := false; dragIndex := -1; hoveredIndex := -1;
     cursor := CursorUnset |}.

(** The loop of [handleMouseDown] from index [i] on: the first point
    within reach starts the drag and the handler returns. *)
Fixpoint mouseDownLoop (points : list Point) (i : nat) (mx my : float)
    (st : State) : State :=
  match points with
  | [] => st
  | point :: rest =>
      if distance mx my point <=? 8 then
        {| isDragging := true; dragIndex := Z.of_nat i;
           hoveredIndex := hoveredIndex st; cursor := cursor st |}
      else mouseDownLoop rest (S i) mx my st
  end.

Definition handleMouseDown (curve : list float) (st : State)
    (mx my : float) : State :=
  mouseDownLoop (getCurvePoints curve) 0 mx my st.

(** The hover loop of [handleMouseMove]: [newHoveredIndex] starts at -1
    and the loop breaks at the first point within reach. *)
Fixpoint hoverLoop (points : list Point) (i : nat) (mx my : float) : Z :=
  match points with
  | [] => (-1)%Z
  | point :: rest =>
      if distance mx my point <=? 8 then Z.of_nat i
      else hoverLoop rest (S i) mx my
  end.

(** A handler returns the next state and the curve it passed to
    [onChange], if it called it. *)
Definition handleMouseMove (curve : list float) (st : State)
    (mx my : float) : State * option (list float) :=
  if isDragging st && (0 <=? dragIndex st)%Z then
    let newY := canvasToValue my true in
    let newCurve := JS.array_set curve (Z.to_nat (dragIndex st)) newY in
    (st, Some newCurve)
  else
    let newHoveredIndex := hoverLoop (getCurvePoints curve) 0 mx my in
    ({| isDragging := isDragging st; dragIndex := dragIndex st;
        hoveredIndex := newHoveredIndex;
        cursor := if (0 <=? newHoveredIndex)%Z then CursorPointer
                  else CursorDefault |},
     None).

Definition handleMouseUp (st : State) : State :=
  {| isDragging := false; dragIndex := -1;
     hoveredIndex := hoveredIndex st; cursor := cursor st |}.

Definition handleMouseLeave (st : State) : State :=
  {| isDragging := false; dragIndex := -1; hoveredIndex := -1;
     cursor := CursorDefault |}.

Definition resetCurve (st : State) : State * option (list float) :=
  (st, Some identityCurve).

(** The widget together with the parent that owns [curve]: the parent
    stores what [onChange] receives and hands it back as the [curve]
    prop. *)
Record Widget : Set := mkWidget { curve : list float; ui : State }.

Inductive Event : Set :=
| MouseDown (mx my : float)
| MouseMove (mx my : float)
| MouseUp
| MouseLeave
| Reset.

Definition deliver (w : Widget) (r : State * option (list float)) : Widget :=
  {| curve := match snd r with Some c => c | None => curve w end;
     ui := fst r |}.

Definition step (w : Widget) (e : Event) : Widget :=
  match e with
  | MouseDown mx my =>
      deliver w (handleMouseDown (curve w) (ui w) mx my, None)
  | MouseMove mx my => deliver w (handleMouseMove (curve w) (ui w) mx my)
  | MouseUp => deliver w (handleMouseUp (ui w), None)
  | MouseLeave => deliver w (handleMouseLeave (ui w), None)
  | Reset => deliver w (resetCurve (ui w))
  end.

Definition run (w : Widget) (events : list Event) : Widget :=
  fold_left step events w.

(** The two interaction states of the widget. *)
Definition Idle (st : State) : Prop :=
  isDragging st = false /\ dragIndex st = (-1)%Z.

Definition Dragging (i : nat) (st : State) : Prop :=
  isDragging st = true /\ dragIndex st = Z.of_nat i.

(** Point [i] is the first point of [points] within reach of the pointer. *)
Definition LowestHit (points : list Point) (mx my : float) (i : nat) : Prop :=
  (exists p, nth_error points i = Some p /\ isHit mx my p = true) /\
  forall j q, (j < i)%nat -> nth_error points j = Some q ->
              isHit mx my q = false.

(** No point of [points] is within reach of the pointer. *)
Definition NoHit (points : list Point) (mx my : float) : Prop :=
  forall j q, nth_error points j = Some q -> isHit mx my q = false.

End CurveEditor.

Module CurveEditorVocabulary.
Import CurveEditor.

(** The state [handleMouseDown] leaves when point [i] is grabbed. *)
Definition startDrag (st : State) (i : nat) : State :=
  {| isDragging := true; dragIndex := Z.of_nat i;
     hoveredIndex := hoveredIndex st; cursor := cursor st |}.

(** Pointer-move events at the given positions. *)
Definition moves (positions : list (float * float)) : list Event :=
  map (fun m => MouseMove (fst m) (snd m)) positions.

(** A widget that has just grabbed point 1 of a bent curve. *)
Definition midDrag : Widget :=
  run (mkWidget identityCurve initialState)
      [MouseDown 60 140; MouseMove 60 116].

End CurveEditorVocabulary.

(** ** Slider positions and exact arithmetic *)

(** The number delivered by a slider ([min = -100], [max = 100],
    [step = 1]) at the integer position [k]. *)
Definition sliderValue (k : Z) : float :=
  if (k <? 0)%Z then - JS.of_Z (- k) else JS.of_Z k.

Definition isSliderPosition (k : Z) : Prop := (-100 <= k <= 100)%Z.

Definition clampZ (lo hi z : Z) : Z := Z.max lo (Z.min hi z).

(** The integer nearest to [num / den], ties to the even one ([0 < den]). *)
Definition roundHalfEven (num den : Z) : Z :=
  let q := (num / den)%Z in
  let twice := (2 * (num mod den))%Z in
  if (twice <? den)%Z then q
  else if (den <? twice)%Z then (q + 1)%Z
  else if Z.even q then q else (q + 1)%Z.

(** [c + k/100 * 30] in exact arithmetic, rounded and clamped to a byte. *)
Definition exactShift (c k : Z) : Z :=
  clampZ 0 255 (roundHalfEven (10 * c + 3 * k) 10).

(** [factor * (c - 128) + 128] in exact arithmetic, where
    [factor = 259 * (x + 255) / (255 * (259 - x))] and [x = k/100 * 2.55],
    rounded and clamped to a byte. *)
Definition exactContrast (c k : Z) : Z :=
  clampZ 0 255
    (roundHalfEven
       (259 * (51 * k + 510000) * (c - 128) + 128 * (255 * (518000 - 51 * k)))
       (255 * (518000 - 51 * k))).

(** Integers [lo, lo + 1, ..., lo + n - 1]. *)
Definition zrange (lo : Z) (n : nat) : list Z :=
  map (fun i => (lo + Z.of_nat i)%Z) (seq 0 n).

(** ** What [drawCurve] draws (CurveEditor.tsx, lines 71-217) *)

Module CurveDrawing.
Import CurveEditor.

Definition GRID_SIZE : float := (CANVAS_SIZE - 2 * PADDING) / 4.

(** [PADDING + i * GRID_SIZE] for [i = 0, ..., 4]: the x of the vertical
    grid lines and the y of the horizontal ones. *)
Definition gridLines : list float :=
  map (fun i => PADDING + JS.of_nat i * GRID_SIZE) (seq 0 5).

(** The path operations of the 2D context that the curve uses. *)
Inductive PathCmd : Set :=
| MoveTo (px py : float)
| LineTo (px py : float)
| BezierCurveTo (cp1x cp1y cp2x cp2y px py : float)
| ClosePath.

(** The Bezier segment from [current] to [next] of both loops. *)
Definition bezierTo (current next : Point) : PathCmd :=
  let cp1x := x current + (x next - x current) * 0.5 in
  let cp1y := y current in
  let cp2x := x next - (x next - x current) * 0.5 in
  let cp2y := y next in
  BezierCurveTo cp1x cp1y cp2x cp2y (x next) (y next).

(** The loop of the filled area, [for (i = 0; i < points.length - 1; i++)],
    from index [i] on. *)
Fixpoint fillLoop (i : nat) (points : list Point) : list PathCmd :=
  match points with
  | current :: ((next :: _) as rest) =>
      (if Nat.eqb i 0 then [LineTo (x current) (y current)] else [])
        ++ bezierTo current next :: fillLoop (S i) rest
  | _ => []
  end.

(** The loop of the curve line. *)
Fixpoint strokeLoop (points : list Point) : list PathCmd :=
  match points with
  | current :: ((next :: _) as rest) =>
      bezierTo current next :: strokeLoop rest
  | _ => []
  end.

(** The path filled under the curve; nothing unless
    [points.length > 1]. *)
Definition fillPath (points : list Point) : list PathCmd :=
  if (1 <? length points)%nat then
    MoveTo PADDING (CANVAS_SIZE - PADDING)
      :: fillLoop 0 points
      ++ [LineTo (CANVAS_SIZE - PADDING) (CANVAS_SIZE - PADDING); ClosePath]
  else [].

(** The path stroked as the curve line. *)
Definition strokePath (points : list Point) : list PathCmd :=
  match points with
  | p0 :: _ =>
      if (1 <? length points)%nat then
        MoveTo (x p0) (y p0) :: strokeLoop points
      else []
  | [] => []
  end.

End CurveDrawing.

(** ** The application state (App.tsx) *)

Module App.

(** The sixteen scalar fields that have a slider. *)
Inductive Field : Set :=
| FTemperature
| FTint
| FContrast
| FSaturation
| FHighlights
| FMidtones
| FShadows
| FWhites
| FBlacks
| FSelectiveRed
| FSelectiveOrange
| FSelectiveBlue
| FSelectiveCyan
| FSaturationRed
| FSaturationOrange
| FSaturationYellow.

(** [setAdjustments(prev => ({ ...prev, field: value }))], the
    [onValueChange] of the slider of [field].  The record is taken apart in
    the order of its declaration and rebuilt with [value] in the place of
    [field]. *)
Definition setField (field : Field) (value : float) (prev : ColorAdjustments)
  : ColorAdjustments :=
  let '(mkAdjustments t ti c s h m sh w bl rc gc bc ac sr so sy sg sc sb sm pr
        po py pg pc pb pm) := prev in
  match field with
  | FTemperature =>
      mkAdjustments value ti c s h m sh w bl rc gc bc ac sr so sy sg sc sb sm
        pr po py pg pc pb pm
  | FTint =>
      mkAdjustments t value c s h m sh w bl rc gc bc ac sr so sy sg sc sb sm
        pr po py pg pc pb pm
  | FContrast =>
      mkAdjustments t ti value s h m sh w bl rc gc bc ac sr so sy sg sc sb sm
        pr po py pg pc pb pm
  | FSaturation =>
      mkAdjustments t ti c value h m sh w bl rc gc bc ac sr so sy sg sc sb sm
        pr po py pg pc pb pm
  | FHighlights =>
      mkAdjustments t ti c s value m sh w bl rc gc bc ac sr so sy sg sc sb sm
        pr po py pg pc pb pm
  | FMidtones =>
      mkAdjustments t ti c s h value sh w bl rc gc bc ac sr so sy sg sc sb sm
        pr po py pg pc pb pm
  | FShadows =>
      mkAdjustments t ti c s h m value w bl rc gc bc ac sr so sy sg sc sb sm
        pr po py pg pc pb pm
  | FWhites =>
      mkAdjustments t ti c s h m sh value bl rc gc bc ac sr so sy sg sc sb sm
        pr po py pg pc pb pm
  | FBlacks =>
      mkAdjustments t ti c s h m sh w value rc gc bc ac sr so sy sg sc sb sm
        pr po py pg pc pb pm
  | FSelectiveRed =>
      mkAdjustments t ti c s h m sh w bl rc gc bc ac value so sy sg sc sb sm
        pr po py pg pc pb pm
  | FSelectiveOrange =>
      mkAdjustments t ti c s h m sh w bl rc gc bc ac sr value sy sg sc sb sm
        pr po py pg pc pb pm
  | FSelectiveBlue =>
      mkAdjustments t ti c s h m sh w bl rc gc bc ac sr so sy sg sc value sm
        pr po py pg pc pb pm
  | FSelectiveCyan =>
      mkAdjustments t ti c s h m sh w bl rc gc bc ac sr so sy sg value sb sm
        pr po py pg pc pb pm
  | FSaturationRed =>
      mkAdjustments t ti c s h m sh w bl rc gc bc ac sr so sy sg sc sb sm
        value po py pg pc pb pm
  | FSaturationOrange =>
      mkAdjustments t ti c s h m sh w bl rc gc bc ac sr so sy sg sc sb sm pr
        value py pg pc pb pm
  | FSaturationYellow =>
      mkAdjustments t ti c s h m sh w bl rc gc bc ac sr so sy sg sc sb sm pr
        po value pg pc pb pm
  end.

(** The value a slider displays, [value={[adjustments.field]}]. *)
Definition getField (field : Field) (adj : ColorAdjustments) : float :=
  match field with
  | FTemperature => temperature adj
  | FTint => tint adj
  | FContrast => contrast adj
  | FSaturation => saturation adj
  | FHighlights => highlights adj
  | FMidtones => midtones adj
  | FShadows => shadows adj
  | FWhites => whites adj
  | FBlacks => blacks adj
  | FSelectiveRed => selectiveRed adj
  | FSelectiveOrange => selectiveOrange adj
  | FSelectiveBlue => selectiveBlue adj
  | FSelectiveCyan => selectiveCyan adj
  | FSaturationRed => saturationRed adj
  | FSaturationOrange => saturationOrange adj
  | FSaturationYellow => saturationYellow adj
  end.

(** The [adjustments] of the three entries of [underwaterPresets], each
    [{ ...defaultAdjustments, ... }]. *)
Definition tropicalBlue : ColorAdjustments :=
  {| temperature := 15; tint := -10; contrast := 20; saturation := 25;
     highlights := -15; midtones := midtones defaultAdjustments;
     shadows := 20; whites := whites defaultAdjustments;
     blacks := blacks defaultAdjustments;
     redCurve := redCurve defaultAdjustments;
     greenCurve := greenCurve defaultAdjustments;
     blueCurve := blueCurve defaultAdjustments;
     rgbCurve := rgbCurve defaultAdjustments;
     selectiveRed := selectiveRed defaultAdjustments;
     selectiveOrange := selectiveOrange defaultAdjustments;
     selectiveYellow := selectiveYellow defaultAdjustments;
     selectiveGreen := selectiveGreen defaultAdjustments;
     selectiveCyan := -15; selectiveBlue := -20;
     selectiveMagenta := selectiveMagenta defaultAdjustments;
     saturationRed := 30; saturationOrange := 25;
     saturationYellow := saturationYellow defaultAdjustments;
     saturationGreen := saturationGreen defaultAdjustments;
     saturationCyan := saturationCyan defaultAdjustments;
     saturationBlue := saturationBlue defaultAdjustments;
     saturationMagenta := saturationMagenta defaultAdjustments |}.

Definition deepSeaPreset : ColorAdjustments :=
  {| temperature := 25; tint := -15; contrast := 30; saturation := 15;
     highlights := -25; midtones := midtones defaultAdjustments;
     shadows := 35; whites := whites defaultAdjustments;
     blacks := blacks defaultAdjustments;
     redCurve := redCurve defaultAdjustments;
     greenCurve := greenCurve defaultAdjustments;
     blueCurve := blueCurve defaultAdjustments;
     rgbCurve := rgbCurve defaultAdjustments;
     selectiveRed := selectiveRed defaultAdjustments;
     selectiveOrange := selectiveOrange defaultAdjustments;
     selectiveYellow := selectiveYellow defaultAdjustments;
     selectiveGreen := selectiveGreen defaultAdjustments;
     selectiveCyan := -25; selectiveBlue := -30;
     selectiveMagenta := selectiveMagenta defaultAdjustments;
     saturationRed := 40;
     saturationOrange := saturationOrange defaultAdjustments;
     saturationYellow := 20;
     saturationGreen := saturationGreen defaultAdjustments;
     saturationCyan := saturationCyan defaultAdjustments;
     saturationBlue := saturationBlue defaultAdjustments;
     saturationMagenta := saturationMagenta defaultAdjustments |}.

Definition coralReef : ColorAdjustments :=
  {| temperature := 10; tint := -5; contrast := 15; saturation := 35;
     highlights := -10; midtones := midtones defaultAdjustments;
     shadows := 15; whites := whites defaultAdjustments;
     blacks := blacks defaultAdjustments;
     redCurve := redCurve defaultAdjustments;
     greenCurve := greenCurve defaultAdjustments;
     blueCurve := blueCurve defaultAdjustments;
     rgbCurve := rgbCurve defaultAdjustments;
     selectiveRed := selectiveRed defaultAdjustments;
     selectiveOrange := selectiveOrange defaultAdjustments;
     selectiveYellow := selectiveYellow defaultAdjustments;
     selectiveGreen := selectiveGreen defaultAdjustments;
     selectiveCyan := selectiveCyan defaultAdjustments; selectiveBlue := -15;
     selectiveMagenta := selectiveMagenta defaultAdjustments;
     saturationRed := 25; saturationOrange := 30; saturationYellow := 20;
     saturationGreen := saturationGreen defaultAdjustments;
     saturationCyan := saturationCyan defaultAdjustments;
     saturationBlue := saturationBlue defaultAdjustments;
     saturationMagenta := saturationMagenta defaultAdjustments |}.

Definition underwaterPresets : list ColorAdjustments :=
  [tropicalBlue; deepSeaPreset; coralReef].

Record State : Set := mkState {
  image : option Bitmap;
  adjustments : ColorAdjustments;
  showBefore : bool;
  zoom : float
}.

Definition initialState : State :=
  {| image := None; adjustments := defaultAdjustments; showBefore := false;
     zoom := 100 |}.

(** What the user can do: an upload that decodes to [img], a slider move, a
    click on the [n]-th preset button, on Reset, on the before/after
    toggle and on the two zoom buttons. *)
Inductive Event : Set :=
| ImageLoaded (img : Bitmap)
| SliderChange (field : Field) (value : float)
| ApplyPreset (n : nat)
| ResetAdjustments
| ToggleBefore
| ZoomOut
| ZoomIn.

(** [setZoom(Math.max(25, zoom - 25))]; the button exists only once an
    image is loaded and is disabled when [zoom <= 25]. *)
Definition zoomOut (st : State) : State :=
  match image st with
  | None => st
  | Some _ =>
      if zoom st <=? 25 then st
      else {| image := image st; adjustments := adjustments st;
              showBefore := showBefore st;
              zoom := JS.max 25 (zoom st - 25) |}
  end.

(** [setZoom(Math.min(200, zoom + 25))]; disabled when [zoom >= 200]. *)
Definition zoomIn (st : State) : State :=
  match image st with
  | None => st
  | Some _ =>
      if 200 <=? zoom st then st
      else {| image := image st; adjustments := adjustments st;
              showBefore := showBefore st;
              zoom := JS.min 200 (zoom st + 25) |}
  end.

Definition withAdjustments (st : State) (adj : ColorAdjustments) : State :=
  {| image := image st; adjustments := adj; showBefore := showBefore st;
     zoom := zoom st |}.

Definition step (st : State) (e : Event) : State :=
  match e with
  | ImageLoaded img =>
      {| image := Some img; adjustments := adjustments st;
         showBefore := showBefore st; zoom := zoom st |}
  | SliderChange field value =>
      withAdjustments st (setField field value (adjustments st))
  | ApplyPreset n =>
      match nth_error underwaterPresets n with
      | Some preset => withAdjustments st preset
      | None => st
      end
  | ResetAdjustments => withAdjustments st defaultAdjustments
  | ToggleBefore =>
      {| image := image st; adjustments := adjustments st;
         showBefore := negb (showBefore st); zoom := zoom st |}
  | ZoomOut => zoomOut st
  | ZoomIn => zoomIn st
  end.

Definition run (st : State) (events : list Event) : State :=
  fold_left step events st.

(** The effect that follows every change of the image, the adjustments or
    the before-view flag: [applyAdjustments] on the current state. *)
Definition render (st : State) (canvas : Bitmap) : Bitmap :=
  applyAdjustments (image st) (showBefore st) (adjustments st) canvas.

(** The zoom levels the two buttons can produce. *)
Definition zoomLevels : list float := [25; 50; 75; 100; 125; 150; 175; 200].

(** The slider moves of a run all deliver values within [-100, 100]. *)
Definition slidersInRange (events : list Event) : Prop :=
  forall field value, In (SliderChange field value) events ->
                      inSlider value = true.

(** The fields no control of the page can change: the four curves stay the
    identity ramp and the seven scalars without a slider stay 0. *)
Definition untouchedFields (adj : ColorAdjustments) : Prop :=
  redCurve adj = identityCurve /\ greenCurve adj = identityCurve /\
  blueCurve adj = identityCurve /\ rgbCurve adj = identityCurve /\
  selectiveYellow adj = 0 /\ selectiveGreen adj = 0 /\
  selectiveMagenta adj = 0 /\ saturationGreen adj = 0 /\
  saturationCyan adj = 0 /\ saturationBlue adj = 0 /\
  saturationMagenta adj = 0.

(** Every slider shows a value within its range [-100, 100]. *)
Definition allInSlider (adj : ColorAdjustments) : Prop :=
  forall field, inSlider (getField field adj) = true.

End App.

(** ** Vocabulary of the statements on the widget's runs *)

Module CurveEditorInvariant.
Import CurveEditor.

(** The interaction state fits a curve of [n] points: the widget is Idle,
    or it drags a point of the curve, and the hovered index is -1 or the
    index of a point. *)
Definition stateFits (n : nat) (st : State) : Prop :=
  (Idle st \/
   (isDragging st = true /\ (0 <= dragIndex st < Z.of_nat n)%Z)) /\
  (-1 <= hoveredIndex st < Z.of_nat n)%Z.

(** A widget over a five-point curve: the length of every curve of
    [defaultAdjustments] and of the ramp [resetCurve] emits. *)
Definition WellFormed (w : Widget) : Prop :=
  length (curve w) = 5%nat /\ stateFits 5 (ui w).

(** Every value of the curve is NaN or within [0, 100]. *)
Definition valuesInRange (c : list float) : Prop :=
  Forall (fun v => inRange 0 100 v = true) c.

(** The events that can change a curve from a state that is not
    dragging: a press and a reset. *)
Definition isPressOrReset (e : Event) : bool :=
  match e with
  | MouseDown _ _ | Reset => true
  | _ => false
  end.

(** A pointer row inside the canvas, as an integer number of pixels. *)
Definition isRow (row : Z) : Prop := (0 <= row <= 200)%Z.

End CurveEditorInvariant.

(** ** Order facts on binary64 numbers

    The comparisons of primitive floats are specified by [SFcompare] on
    their decoded form; the facts below are the little of IEEE ordering the
    clamping and banding arguments need. *)

Section FloatOrder.

Lemma SFcompare_swap (a b : spec_float) :
  SFcompare b a = option_map CompOpp (SFcompare a b).
Proof.
  destruct a as [sa|sa| |sa ma ea], b as [sb|sb| |sb mb eb]; simpl;
    try reflexivity;
    try (destruct sa; reflexivity);
    try (destruct sb; reflexivity);
    try (destruct sa, sb; reflexivity).
  destruct sa, sb; try reflexivity;
    rewrite (Z.compare_antisym ea eb);
    destruct (ea ?= eb)%Z; simpl; try reflexivity;
    rewrite (Pos.compare_cont_antisym ma mb Eq); simpl;
    try rewrite CompOpp_involutive; reflexivity.
Qed.

Lemma is_nan_false_compare (x y : float) :
  is_nan x = false -> is_nan y = false ->
  exists c, SFcompare (Prim2SF x) (Prim2SF y) = Some c.
Proof.
  unfold is_nan. rewrite !FloatAxioms.eqb_spec. unfold SFeqb. intros Hx Hy.
  destruct (Prim2SF x) as [sx|sx| |sx mx ex]; try discriminate Hx;
    destruct (Prim2SF y) as [sy|sy| |sy my ey]; try discriminate Hy;
    simpl; eauto.
Qed.

Lemma ltb_leb (x y : float) : (x <? y) = true -> (x <=? y) = true.
Proof.
  rewrite FloatAxioms.ltb_spec, FloatAxioms.leb_spec. unfold SFltb, SFleb.
  destruct (SFcompare _ _) as [[]|]; congruence.
Qed.

Lemma ltb_not_leb (x y : float) : (x <? y) = true -> (y <=? x) = false.
Proof.
  rewrite FloatAxioms.ltb_spec, FloatAxioms.leb_spec. unfold SFltb, SFleb.
  rewrite (SFcompare_swap (Prim2SF x) (Prim2SF y)).
  destruct (SFcompare _ _) as [[]|]; simpl; congruence.
Qed.

Lemma leb_not_ltb (x y : float) : (x <=? y) = true -> (y <? x) = false.
Proof.
  rewrite FloatAxioms.ltb_spec, FloatAxioms.leb_spec. unfold SFltb, SFleb.
  rewrite (SFcompare_swap (Prim2SF x) (Prim2SF y)).
  destruct (SFcompare _ _) as [[]|]; simpl; congruence.
Qed.

Lemma not_ltb_leb (x y : float) :
  is_nan x = false -> is_nan y = false ->
  (x <? y) = false -> (y <=? x) = true.
Proof.
  intros Hx Hy. destruct (is_nan_false_compare x y Hx Hy) as [c Hc].
  rewrite FloatAxioms.ltb_spec, FloatAxioms.leb_spec. unfold SFltb, SFleb.
  rewrite (SFcompare_swap (Prim2SF x) (Prim2SF y)), Hc.
  destruct c; simpl; congruence.
Qed.

Lemma leb_refl (x : float) : is_nan x = false -> (x <=? x) = true.
Proof.
  intros Hx. destruct (is_nan_false_compare x x Hx Hx) as [c Hc].
  pose proof (SFcompare_swap (Prim2SF x) (Prim2SF x)) as Hs.
  rewrite FloatAxioms.leb_spec. unfold SFleb. rewrite Hc in *.
  destruct c; simpl in Hs; congruence.
Qed.

Lemma SFltb_trans (a b c : spec_float) :
  SFltb a b = true -> SFltb b c = true -> SFltb a c = true.
Proof.
  unfold SFltb.
  destruct a as [sa|sa| |sa ma ea], b as [sb|sb| |sb mb eb],
    c as [sc|sc| |sc mc ec]; simpl; try congruence;
    try (destruct sa; simpl; congruence);
    try (destruct sb; simpl; congruence);
    try (destruct sc; simpl; congruence);
    try (destruct sa, sb; simpl; congruence);
    try (destruct sb, sc; simpl; congruence);
    try (destruct sa, sc; simpl; congruence);
    try (destruct sa, sb, sc; simpl; congruence).
  change (Pos.compare_cont Eq) with Pos.compare.
  destruct sa, sb, sc; simpl; try congruence;
    destruct (Z.compare_spec ea eb), (Z.compare_spec eb ec),
      (Z.compare_spec ea ec); try congruence; try lia; subst;
    destruct (Pos.compare_spec ma mb), (Pos.compare_spec mb mc),
      (Pos.compare_spec ma mc); simpl; try congruence; try lia.
Qed.

Lemma ltb_trans (x y z : float) :
  (x <? y) = true -> (y <? z) = true -> (x <? z) = true.
Proof. rewrite !FloatAxioms.ltb_spec. apply SFltb_trans. Qed.

End FloatOrder.

Section MinMax.

(** A [Math.min] that is not NaN is one of its arguments and is below
    both. *)
Lemma min_spec (a b : float) :
  JS.min a b = nan \/
  (is_nan (JS.min a b) = false /\ (JS.min a b = a \/ JS.min a b = b) /\
   (JS.min a b <=? a) = true /\ (JS.min a b <=? b) = true).
Proof.
  unfold JS.min.
  destruct (is_nan a) eqn:Ha; [left; reflexivity|].
  destruct (is_nan b) eqn:Hb; [left; reflexivity|]. simpl. right.
  destruct (a <? b) eqn:Hab.
  { repeat split; auto using leb_refl, ltb_leb. }
  destruct (b <? a) eqn:Hba.
  { repeat split; auto using leb_refl, ltb_leb. }
  destruct (get_sign a); repeat split;
    auto using leb_refl, not_ltb_leb.
Qed.

(** A [Math.max] that is not NaN is one of its arguments and is above
    both. *)
Lemma max_spec (a b : float) :
  JS.max a b = nan \/
  (is_nan (JS.max a b) = false /\ (JS.max a b = a \/ JS.max a b = b) /\
   (a <=? JS.max a b) = true /\ (b <=? JS.max a b) = true).
Proof.
  unfold JS.max.
  destruct (is_nan a) eqn:Ha; [left; reflexivity|].
  destruct (is_nan b) eqn:Hb; [left; reflexivity|]. simpl. right.
  destruct (a <? b) eqn:Hab.
  { repeat split; auto using leb_refl, ltb_leb. }
  destruct (b <? a) eqn:Hba.
  { repeat split; auto using leb_refl, ltb_leb. }
  destruct (get_sign a); repeat split;
    auto using leb_refl, not_ltb_leb.
Qed.

Lemma inRange_nan (lo hi : float) : inRange lo hi nan = true.
Proof. reflexivity. Qed.

(** [Math.min(255, Math.max(0, e))] is NaN or within [0, 255]. *)
Lemma clamp255_range (e : float) : inRange 0 255 (clamp255 e) = true.
Proof.
  unfold clamp255.
  destruct (min_spec 255 (JS.max 0 e)) as [-> | (Hn & Hsel & Ha & _)];
    [reflexivity|].
  unfold inRange. rewrite Hn, Ha, andb_true_r. simpl.
  destruct Hsel as [-> | ->]; [reflexivity|].
  destruct (max_spec 0 e) as [E | (_ & _ & H0 & _)]; [|exact H0].
  rewrite E in Hn. discriminate Hn.
Qed.

End MinMax.

(** ** Facts on loads and stores of the pixel buffer *)

Section Buffer.

(** Induction following the stride of the pixel loop. *)
Lemma list_ind4 (A : Type) (P : list A -> Prop) :
  P [] -> (forall r, P [r]) -> (forall r g, P [r; g]) ->
  (forall r g b, P [r; g; b]) ->
  (forall r g b a rest, P rest -> P (r :: g :: b :: a :: rest)) ->
  forall l, P l.
Proof.
  intros H0 H1 H2 H3 H4.
  fix IH 1. intros [|r [|g [|b [|a rest]]]].
  - exact H0.
  - apply H1.
  - apply H2.
  - apply H3.
  - apply H4, IH.
Qed.

Lemma isByte_enum (v : Z) : isByte v -> In (Z.to_nat v) (seq 0 256).
Proof. unfold isByte. intros H. apply in_seq. lia. Qed.

(** A byte read from the buffer and stored back is unchanged. *)
Lemma store_load (v : Z) : isByte v -> JS.ToUint8Clamp (JS.of_Z v) = v.
Proof.
  intros H.
  assert (E : forallb (fun n => (JS.ToUint8Clamp (JS.of_Z (Z.of_nat n))
                                 =? Z.of_nat n)%Z) (seq 0 256) = true)
    by (vm_compute; reflexivity).
  rewrite forallb_forall in E. specialize (E _ (isByte_enum v H)).
  rewrite Z2Nat.id in E by (unfold isByte in H; lia).
  now apply Z.eqb_eq.
Qed.

(** A byte read from the buffer is a number within [0, 255]. *)
Lemma load_range (v : Z) : isByte v -> inRange 0 255 (JS.of_Z v) = true.
Proof.
  intros H.
  assert (E : forallb (fun n => inRange 0 255 (JS.of_Z (Z.of_nat n)))
                      (seq 0 256) = true)
    by (vm_compute; reflexivity).
  rewrite forallb_forall in E. specialize (E _ (isByte_enum v H)).
  rewrite Z2Nat.id in E by (unfold isByte in H; lia).
  exact E.
Qed.

(** Whatever number is stored, the buffer receives a byte. *)
Lemma ToUint8Clamp_byte (x : float) : isByte (JS.ToUint8Clamp x).
Proof.
  unfold isByte, JS.ToUint8Clamp.
  destruct (Prim2SF x) as [s|s| |s m e]; try lia.
  - destruct s; lia.
  - destruct s; [lia|].
    destruct (0 <=? e)%Z eqn:He.
    + apply Z.leb_le in He.
      pose proof (Z.pow_pos_nonneg 2 e ltac:(lia) He). nia.
    + apply Z.leb_gt in He.
      assert (Hd : (0 < 2 ^ (- e))%Z) by (apply Z.pow_pos_nonneg; lia).
      pose proof (Z.div_pos (Z.pos m) (2 ^ (- e)) ltac:(lia) Hd) as Hf.
      cbv zeta.
      destruct (255 <=? Z.pos m / 2 ^ (- e))%Z eqn:Hc; [lia|].
      apply Z.leb_gt in Hc.
      repeat match goal with
             | |- context [if ?c then _ else _] => destruct c
             end; lia.
Qed.

End Buffer.

(** ** Skipped steps *)

Section Skipping.

(** With the seven controls read by the loop at zero, no step changes the
    working variables. *)
Lemma adjustPixel_skip (adj : ColorAdjustments) (p : rgb) :
  JS.neq (temperature adj) 0 = false -> JS.neq (tint adj) 0 = false ->
  JS.neq (contrast adj) 0 = false -> JS.neq (saturation adj) 0 = false ->
  JS.neq (highlights adj) 0 = false -> JS.neq (midtones adj) 0 = false ->
  JS.neq (shadows adj) 0 = false ->
  adjustPixel adj p = p.
Proof.
  intros Ht Hti Hc Hs Hh Hm Hsh. destruct p as [[r g] b].
  unfold adjustPixel, stepTemperature, stepTint, stepContrast,
    stepSaturation.
  rewrite Ht, Hti, Hc, Hs.
  unfold stepZones, zoneOf. rewrite Hh, Hm, Hsh, !andb_false_r.
  reflexivity.
Qed.

Lemma adjustPixel_default (p : rgb) : adjustPixel defaultAdjustments p = p.
Proof. apply adjustPixel_skip; reflexivity. Qed.

End Skipping.

(** C1 (identity law): with every control at 0 and every curve at the
    identity ramp, that is with [defaultAdjustments], the pixel loop returns
    the buffer it was given, element for element, and so does the render
    step. *)
Theorem identity_law (data : list Z) :
  validBuffer data ->
  pixelLoop defaultAdjustments data = data /\
  forall w h canvas,
    applyAdjustments (Some (mkBitmap w h data)) false defaultAdjustments canvas
    = mkBitmap w h data.
Proof.
  intros Hv.
  assert (E : pixelLoop defaultAdjustments data = data).
  { revert Hv. unfold validBuffer.
    induction data as [|r|r g|r g b|r g b a rest IH] using list_ind4;
      intros Hv; cbn [pixelLoop]; rewrite ?adjustPixel_default;
      repeat match goal with
             | H : Forall _ (_ :: _) |- _ =>
                 apply Forall_cons_iff in H; destruct H
             end;
      rewrite ?store_load by assumption; try reflexivity.
    rewrite IH by assumption. reflexivity. }
  split; [exact E|].
  intros w h canvas. unfold applyAdjustments. cbn. rewrite E. reflexivity.
Qed.

Lemma identity_law_witness :
  pixelLoop defaultAdjustments [200; 50; 50; 255; 0; 255; 17; 0]%Z
  = [200; 50; 50; 255; 0; 255; 17; 0]%Z.
Proof.
  apply (identity_law [200; 50; 50; 255; 0; 255; 17; 0]%Z).
  repeat constructor; unfold isByte; lia.
Defined.

(** ** Range of the working variables *)

Section Ranges.

Variable adj : ColorAdjustments.

Lemma rgbInRange_intro (r g b : float) :
  inRange 0 255 r = true -> inRange 0 255 g = true ->
  inRange 0 255 b = true -> rgbInRange (r, g, b) = true.
Proof. intros Hr Hg Hb. unfold rgbInRange. now rewrite Hr, Hg, Hb. Qed.

Lemma rgbInRange_elim (r g b : float) :
  rgbInRange (r, g, b) = true ->
  inRange 0 255 r = true /\ inRange 0 255 g = true /\
  inRange 0 255 b = true.
Proof.
  unfold rgbInRange. intros H.
  apply andb_true_iff in H. destruct H as [H Hb].
  apply andb_true_iff in H. tauto.
Qed.

Lemma scaleRgb_range (factor : float) (p : rgb) :
  rgbInRange (scaleRgb factor p) = true.
Proof.
  destruct p as [[r g] b].
  apply rgbInRange_intro; apply clamp255_range.
Qed.

Lemma stepTemperature_range (p : rgb) :
  rgbInRange p = true -> rgbInRange (stepTemperature adj p) = true.
Proof.
  destruct p as [[r g] b]. intros H. unfold stepTemperature.
  destruct (JS.neq (temperature adj) 0); [|exact H].
  apply rgbInRange_elim in H. destruct H as (_ & Hg & _).
  apply rgbInRange_intro; auto using clamp255_range.
Qed.

Lemma stepTint_range (p : rgb) :
  rgbInRange p = true -> rgbInRange (stepTint adj p) = true.
Proof.
  destruct p as [[r g] b]. intros H. unfold stepTint.
  destruct (JS.neq (tint adj) 0); [|exact H].
  apply rgbInRange_elim in H. destruct H as (Hr & _ & Hb).
  apply rgbInRange_intro; auto using clamp255_range.
Qed.

Lemma stepContrast_range (p : rgb) :
  rgbInRange p = true -> rgbInRange (stepContrast adj p) = true.
Proof.
  destruct p as [[r g] b]. intros H. unfold stepContrast.
  destruct (JS.neq (contrast adj) 0); [|exact H].
  apply rgbInRange_intro; apply clamp255_range.
Qed.

Lemma stepSaturation_range (p : rgb) :
  rgbInRange p = true -> rgbInRange (stepSaturation adj p) = true.
Proof.
  destruct p as [[r g] b]. intros H. unfold stepSaturation.
  destruct (JS.neq (saturation adj) 0); [|exact H].
  apply rgbInRange_intro; apply clamp255_range.
Qed.

Lemma stepZones_range (p : rgb) :
  rgbInRange p = true -> rgbInRange (stepZones adj p) = true.
Proof.
  intros H. unfold stepZones.
  destruct (zoneOf adj (normalizedLumOf p)); [apply scaleRgb_range|exact H].
Qed.

Lemma adjustPixel_range (p : rgb) :
  rgbInRange p = true -> rgbInRange (adjustPixel adj p) = true.
Proof.
  intros H. unfold adjustPixel.
  apply stepZones_range, stepSaturation_range, stepContrast_range,
    stepTint_range, stepTemperature_range, H.
Qed.

Lemma pixelLoop_valid (data : list Z) :
  validBuffer data -> validBuffer (pixelLoop adj data).
Proof.
  unfold validBuffer.
  induction data as [|r|r g|r g b|r g b a rest IH] using list_ind4;
    intros Hv; cbn [pixelLoop].
  - constructor.
  - destruct (adjustPixel adj _) as [[r' g'] b'].
    repeat constructor; apply ToUint8Clamp_byte.
  - destruct (adjustPixel adj _) as [[r' g'] b'].
    repeat constructor; apply ToUint8Clamp_byte.
  - destruct (adjustPixel adj _) as [[r' g'] b'].
    repeat constructor; apply ToUint8Clamp_byte.
  - destruct (adjustPixel adj _) as [[r' g'] b'].
    do 4 (apply Forall_cons_iff in Hv; destruct Hv as [? Hv]).
    repeat (constructor; [apply ToUint8Clamp_byte|]).
    constructor; [assumption|]. apply IH, Hv.
Qed.

End Ranges.

(** C2 (clamping law): for a buffer of bytes and a record with a single
    nonzero control within [-100, 100], every element of the output buffer
    is within [0, 255]; inside the loop the working variables of a pixel
    are, after the last step, each NaN or within [0, 255], and a NaN is
    stored as 0. *)
Theorem clamping_law (adj : ColorAdjustments) (data : list Z) :
  validBuffer data -> singleControl adj ->
  validBuffer (pixelLoop adj data) /\
  forall r g b, isByte r -> isByte g -> isByte b ->
    rgbInRange (adjustPixel adj (JS.of_Z r, JS.of_Z g, JS.of_Z b)) = true.
Proof.
  intros Hv _. split; [apply pixelLoop_valid, Hv|].
  intros r g b Hr Hg Hb.
  apply adjustPixel_range, rgbInRange_intro; now apply load_range.
Qed.

(** The boundary inputs 0 and 255 under each control at +100 and -100: the
    stores of the black pixel and of the white pixel. *)
Example boundary_outputs :
  map (fun adj => pixelLoop adj boundaryBuffer) extremeControls =
  [ [30; 0; 0; 255; 255; 255; 225; 255]; [0; 0; 30; 255; 225; 255; 255; 255];
    [0; 30; 0; 255; 255; 255; 255; 255]; [0; 0; 0; 255; 255; 225; 255; 255];
    [0; 0; 0; 255; 255; 255; 255; 255]; [3; 3; 3; 255; 253; 253; 253; 255];
    [0; 0; 0; 255; 255; 255; 255; 255]; [0; 0; 0; 255; 255; 255; 255; 255];
    [0; 0; 0; 255; 255; 255; 255; 255]; [0; 0; 0; 255; 0; 0; 0; 255];
    [0; 0; 0; 255; 255; 255; 255; 255]; [0; 0; 0; 255; 255; 255; 255; 255];
    [0; 0; 0; 255; 255; 255; 255; 255]; [0; 0; 0; 255; 255; 255; 255; 255]
  ]%Z.
Proof. vm_compute. reflexivity. Qed.

Lemma clamping_law_witness :
  validBuffer (pixelLoop (withBasic 0 0 100 0 0 0 0) boundaryBuffer).
Proof.
  apply (clamping_law (withBasic 0 0 100 0 0 0 0) boundaryBuffer).
  - repeat constructor; unfold isByte; lia.
  - split; [vm_compute; lia | vm_compute; reflexivity].
Defined.

(** ** Parameters the loop does not read *)

Lemma adjustPixel_wired (a1 a2 : ColorAdjustments) (p : rgb) :
  agreeOnWired a1 a2 -> adjustPixel a1 p = adjustPixel a2 p.
Proof.
  intros (Ht & Hti & Hc & Hs & Hh & Hm & Hsh).
  unfold adjustPixel, stepZones, zoneOf, zoneFactor, stepSaturation,
    stepContrast, stepTint, stepTemperature.
  rewrite Ht, Hti, Hc, Hs, Hh, Hm, Hsh. reflexivity.
Qed.

Lemma pixelLoop_ext (a1 a2 : ColorAdjustments) (data : list Z) :
  (forall p, adjustPixel a1 p = adjustPixel a2 p) ->
  pixelLoop a1 data = pixelLoop a2 data.
Proof.
  intros H.
  induction data as [|r|r g|r g b|r g b a rest IH] using list_ind4;
    cbn [pixelLoop]; rewrite ?H, ?IH; reflexivity.
Qed.

(** C4 (noninterference of unwired parameters): two records that agree on
    temperature, tint, contrast, saturation, highlights, midtones and
    shadows give the same output buffer, whatever their whites, blacks,
    curves, selective-color and per-color-saturation fields are. *)
Theorem unwired_noninterference (a1 a2 : ColorAdjustments) :
  agreeOnWired a1 a2 ->
  forall data : list Z,
    pixelLoop a1 data = pixelLoop a2 data /\
    forall image showBefore canvas,
      applyAdjustments image showBefore a1 canvas
      = applyAdjustments image showBefore a2 canvas.
Proof.
  intros H data.
  assert (E : forall d, pixelLoop a1 d = pixelLoop a2 d)
    by (intros d; apply pixelLoop_ext; intros p; now apply adjustPixel_wired).
  split; [apply E|].
  intros [img|] showBefore canvas; [|reflexivity].
  unfold applyAdjustments. cbn. now rewrite E.
Qed.

Lemma unwired_noninterference_witness :
  pixelLoop deepSea [200; 50; 50; 255]%Z
  = pixelLoop deepSeaRewired [200; 50; 50; 255]%Z.
Proof.
  apply (unwired_noninterference deepSea deepSeaRewired).
  repeat split.
Defined.

(** ** Re-rendering *)

(** C6 as stated does not hold of the pixel loop: with temperature at 50 the
    grey pixel (100,100,100) becomes (115,100,85), and a second pass over
    that output gives (130,100,70). *)
Lemma pixelLoop_not_idempotent :
  validBuffer [100; 100; 100; 255]%Z /\
  pixelLoop (withBasic 50 0 0 0 0 0 0) [100; 100; 100; 255]%Z
  = [115; 100; 85; 255]%Z /\
  pixelLoop (withBasic 50 0 0 0 0 0 0)
    (pixelLoop (withBasic 50 0 0 0 0 0 0) [100; 100; 100; 255]%Z)
  = [130; 100; 70; 255]%Z /\
  pixelLoop (withBasic 50 0 0 0 0 0 0)
    (pixelLoop (withBasic 50 0 0 0 0 0 0) [100; 100; 100; 255]%Z)
  <> pixelLoop (withBasic 50 0 0 0 0 0 0) [100; 100; 100; 255]%Z.
Proof.
  split; [repeat constructor; unfold isByte; lia|].
  split; [vm_compute; reflexivity|].
  split; [vm_compute; reflexivity|].
  vm_compute. discriminate.
Qed.

(** C6, amended: the render step is a function of the decoded source
    image, the before-view flag and the parameters, so it is deterministic,
    and running it again on the canvas it produced leaves that canvas
    unchanged, because every run redraws the source image first; once an
    image is loaded the result does not depend on what the canvas held. *)
Theorem render_idempotent (image : option Bitmap) (showBefore : bool)
    (adj : ColorAdjustments) (canvas : Bitmap) :
  applyAdjustments image showBefore adj
    (applyAdjustments image showBefore adj canvas)
  = applyAdjustments image showBefore adj canvas /\
  forall img canvas',
    applyAdjustments (Some img) showBefore adj canvas
    = applyAdjustments (Some img) showBefore adj canvas'.
Proof.
  split.
  - destruct image as [img|]; reflexivity.
  - intros img canvas'. reflexivity.
Qed.

(** ** Scenarios *)

(** C7 (full desaturation): with saturation at -100 and every other control
    at its default, the pixel (200,50,50) leaves the loop body with r, g and
    b all equal to the luminance 0.299*200 + 0.587*50 + 0.114*50, which
    evaluates to 94.85 in binary64; each channel is stored as the byte 95,
    the integer nearest to it (and to 95.05), and alpha is untouched. *)
Theorem full_desaturation :
  let adj := withBasic 0 0 0 (-100) 0 0 0 in
  let L := 0.299 * 200 + 0.587 * 50 + 0.114 * 50 in
  adjustPixel adj (200, 50, 50) = (L, L, L) /\
  L = 94.849999999999994 /\
  JS.ToUint8Clamp L = 95%Z /\ JS.ToUint8Clamp 95.05 = 95%Z /\
  forall a, pixelLoop adj [200; 50; 50; a]%Z = [95; 95; 95; a]%Z.
Proof.
  cbv zeta. repeat split; try (vm_compute; reflexivity).
Qed.

(** C10 (before-view bypass): with [showBefore] set, the render step leaves
    on the canvas the decoded source image as drawn, whatever the
    adjustment record holds; the pixel loop is not run. *)
Theorem before_view_bypass (img : Bitmap) (adj : ColorAdjustments)
    (canvas : Bitmap) :
  applyAdjustments (Some img) true adj canvas = img /\
  data (applyAdjustments (Some img) true adj canvas) = data img /\
  forall adj', applyAdjustments (Some img) true adj canvas
               = applyAdjustments (Some img) true adj' canvas.
Proof.
  destruct img as [w h d]. repeat split.
Qed.

(** ** The luminance zones *)

Section Zones.

Variable adj : ColorAdjustments.

(** No normalized luminance lies in two bands. *)
Lemma inBand_exclusive (z1 z2 : Zone) (nl : float) :
  inBand z1 nl = true -> inBand z2 nl = true -> z1 = z2.
Proof.
  assert (H37 : (0.3 <? 0.7) = true) by reflexivity.
  destruct z1, z2; simpl; intros H1 H2; try reflexivity; exfalso;
    repeat match goal with
           | H : (_ && _) = true |- _ =>
               apply andb_true_iff in H; destruct H
           end.
  - pose proof (ltb_not_leb _ _ H1). congruence.
  - pose proof (ltb_trans nl 0.3 0.7 H2 H37) as H.
    apply ltb_leb in H. pose proof (ltb_not_leb _ _ H1). congruence.
  - pose proof (ltb_not_leb _ _ H2). congruence.
  - pose proof (ltb_not_leb _ _ H2). congruence.
  - pose proof (ltb_trans nl 0.3 0.7 H1 H37) as H.
    apply ltb_leb in H. pose proof (ltb_not_leb _ _ H2). congruence.
  - pose proof (ltb_not_leb _ _ H1). congruence.
Qed.

(** Every normalized luminance that is a number lies in a band. *)
Lemma inBand_total (nl : float) :
  is_nan nl = false -> exists z, inBand z nl = true.
Proof.
  intros Hn.
  destruct (0.7 <? nl) eqn:H7; [exists Highlights; exact H7|].
  destruct (nl <? 0.3) eqn:H3; [exists Shadows; exact H3|].
  exists Midtones. simpl.
  rewrite (not_ltb_leb nl 0.3 Hn eq_refl H3).
  rewrite (not_ltb_leb 0.7 nl eq_refl Hn H7). reflexivity.
Qed.

(** The branch taken is the one whose band holds the luminance, provided
    its control is nonzero. *)
Lemma zoneOf_spec (nl : float) (z : Zone) :
  zoneOf adj nl = Some z <->
  inBand z nl = true /\ JS.neq (zoneControl adj z) 0 = true.
Proof.
  split.
  - unfold zoneOf.
    destruct ((0.7 <? nl) && JS.neq (highlights adj) 0) eqn:E1.
    { intros [= <-]. now apply andb_true_iff in E1. }
    destruct ((0.3 <=? nl) && (nl <=? 0.7) && JS.neq (midtones adj) 0)
      eqn:E2.
    { intros [= <-]. now apply andb_true_iff in E2. }
    destruct ((nl <? 0.3) && JS.neq (shadows adj) 0) eqn:E3.
    { intros [= <-]. now apply andb_true_iff in E3. }
    discriminate.
  - intros [Hb Hc]. unfold zoneOf.
    destruct ((0.7 <? nl) && JS.neq (highlights adj) 0) eqn:E1.
    { apply andb_true_iff in E1. destruct E1 as [E1 _].
      f_equal. exact (inBand_exclusive Highlights z nl E1 Hb). }
    destruct ((0.3 <=? nl) && (nl <=? 0.7) && JS.neq (midtones adj) 0)
      eqn:E2.
    { apply andb_true_iff in E2. destruct E2 as [E2 _].
      f_equal. exact (inBand_exclusive Midtones z nl E2 Hb). }
    destruct ((nl <? 0.3) && JS.neq (shadows adj) 0) eqn:E3.
    { apply andb_true_iff in E3. destruct E3 as [E3 _].
      f_equal. exact (inBand_exclusive Shadows z nl E3 Hb). }
    destruct z; simpl in Hb, Hc; rewrite Hb, Hc in *; discriminate.
Qed.

End Zones.

(** C3 as stated does not hold at its first point: with highlights at 50 and a
    pixel whose normalized luminance is exactly 0.7, no branch of the zone
    step is taken and the pixel is stored unchanged; the highlights factor
    1.5 is not applied.  With midtones at 50 as well, the pixel is scaled
    by the midtones factor. *)
Lemma highlights_boundary_excluded :
  JS.neq (highlights (withBasic 0 0 0 0 50 0 0)) 0 = true /\
  normalizedLumOf (51, 255, 119) = 0.7 /\
  zoneOf (withBasic 0 0 0 0 50 0 0) 0.7 = None /\
  stepZones (withBasic 0 0 0 0 50 0 0) (51, 255, 119) = (51, 255, 119) /\
  pixelLoop (withBasic 0 0 0 0 50 0 0) [51; 255; 119; 255]%Z
  = [51; 255; 119; 255]%Z /\
  stepZones (withBasic 0 0 0 0 50 0 0) (51, 255, 119)
  <> scaleRgb (zoneFactor (withBasic 0 0 0 0 50 0 0) Highlights)
       (51, 255, 119) /\
  pixelLoop (withBasic 0 0 0 0 50 50 0) [51; 255; 119; 255]%Z
  = [76; 255; 178; 255]%Z.
Proof.
  do 5 (split; [vm_compute; reflexivity|]).
  split; [|vm_compute; reflexivity].
  intros H. apply (f_equal (fun p => JS.ToUint8Clamp (fst (fst p)))) in H.
  vm_compute in H. discriminate H.
Qed.

(** A pixel whose luminance lies in the band of a zone with a nonzero
    control has each channel multiplied by that zone's factor and clamped;
    with that control at zero it is left alone. *)
Lemma stepZones_in_band (adj : ColorAdjustments) (r g b : float) (z : Zone) :
  inBand z (normalizedLumOf (r, g, b)) = true ->
  JS.neq (zoneControl adj z) 0 = true ->
  stepZones adj (r, g, b)
  = (JS.min 255 (JS.max 0 (r * (1 + zoneControl adj z / 100))),
     JS.min 255 (JS.max 0 (g * (1 + zoneControl adj z / 100))),
     JS.min 255 (JS.max 0 (b * (1 + zoneControl adj z / 100)))).
Proof.
  intros Hb Hc. unfold stepZones.
  rewrite (proj2 (zoneOf_spec adj _ z) (conj Hb Hc)).
  destruct z; reflexivity.
Qed.

Lemma stepZones_control_zero (adj : ColorAdjustments) (p : rgb) (z : Zone) :
  inBand z (normalizedLumOf p) = true ->
  JS.neq (zoneControl adj z) 0 = false ->
  stepZones adj p = p.
Proof.
  intros Hb Hc. unfold stepZones.
  destruct (zoneOf adj (normalizedLumOf p)) as [z'|] eqn:E; [|reflexivity].
  apply zoneOf_spec in E. destruct E as [Hb' Hc'].
  rewrite (inBand_exclusive z' z _ Hb' Hb) in Hc'. congruence.
Qed.

(** C3, amended: the highlights band is open at 0.7 and the midtones band
    is closed at both ends.  With the zone's control nonzero, a normalized
    luminance of exactly 0.7 takes the midtones branch (never the
    highlights branch), 0.2999 takes the shadows branch and 0.3 the
    midtones branch.  For every luminance the branch taken is the one whose
    band holds it, the bands are pairwise disjoint and cover every number,
    and the step applies the factor of that one branch, or nothing.  On
    pixels: a pixel whose luminance lies in a band whose control is nonzero
    leaves the step with every channel multiplied by [1 + control/100] and
    clamped to [0, 255]; so a pixel at exactly 0.7 or 0.3 receives the
    midtones factor and one at 0.2999 the shadows factor; a pixel in a band
    whose control is zero is unchanged.  The byte pixels (51,255,119),
    (5,127,4), (10,20,30) and (250,250,250) have luminance 0.7, 0.3, below
    0.3 and above 0.7: with highlights 50, midtones -30 and shadows 20 they
    are stored scaled by 0.7, 0.7, 1.2 and 1.5. *)
Theorem zone_partition (adj : ColorAdjustments) :
  (JS.neq (midtones adj) 0 = true -> zoneOf adj 0.7 = Some Midtones) /\
  zoneOf adj 0.7 <> Some Highlights /\
  (JS.neq (shadows adj) 0 = true -> zoneOf adj 0.2999 = Some Shadows) /\
  (JS.neq (midtones adj) 0 = true -> zoneOf adj 0.3 = Some Midtones) /\
  (forall nl z, zoneOf adj nl = Some z <->
                inBand z nl = true /\ JS.neq (zoneControl adj z) 0 = true) /\
  (forall nl z1 z2, inBand z1 nl = true -> inBand z2 nl = true -> z1 = z2) /\
  (forall nl, is_nan nl = false -> exists z, inBand z nl = true) /\
  (forall p, stepZones adj p = p \/
             exists z, zoneOf adj (normalizedLumOf p) = Some z /\
                       zoneFactor adj z = 1 + zoneControl adj z / 100 /\
                       stepZones adj p = scaleRgb (zoneFactor adj z) p) /\
  (forall r g b z,
      inBand z ((0.299 * r + 0.587 * g + 0.114 * b) / 255) = true ->
      JS.neq (zoneControl adj z) 0 = true ->
      stepZones adj (r, g, b)
      = (JS.min 255 (JS.max 0 (r * (1 + zoneControl adj z / 100))),
         JS.min 255 (JS.max 0 (g * (1 + zoneControl adj z / 100))),
         JS.min 255 (JS.max 0 (b * (1 + zoneControl adj z / 100))))) /\
  (forall p z,
      inBand z (normalizedLumOf p) = true ->
      JS.neq (zoneControl adj z) 0 = false ->
      stepZones adj p = p) /\
  (forall r g b,
      (0.299 * r + 0.587 * g + 0.114 * b) / 255 = 0.7 ->
      JS.neq (midtones adj) 0 = true ->
      stepZones adj (r, g, b)
      = (JS.min 255 (JS.max 0 (r * (1 + midtones adj / 100))),
         JS.min 255 (JS.max 0 (g * (1 + midtones adj / 100))),
         JS.min 255 (JS.max 0 (b * (1 + midtones adj / 100))))) /\
  (forall r g b,
      (0.299 * r + 0.587 * g + 0.114 * b) / 255 = 0.3 ->
      JS.neq (midtones adj) 0 = true ->
      stepZones adj (r, g, b)
      = (JS.min 255 (JS.max 0 (r * (1 + midtones adj / 100))),
         JS.min 255 (JS.max 0 (g * (1 + midtones adj / 100))),
         JS.min 255 (JS.max 0 (b * (1 + midtones adj / 100))))) /\
  (forall r g b,
      (0.299 * r + 0.587 * g + 0.114 * b) / 255 = 0.2999 ->
      JS.neq (shadows adj) 0 = true ->
      stepZones adj (r, g, b)
      = (JS.min 255 (JS.max 0 (r * (1 + shadows adj / 100))),
         JS.min 255 (JS.max 0 (g * (1 + shadows adj / 100))),
         JS.min 255 (JS.max 0 (b * (1 + shadows adj / 100))))) /\
  (stepZones (withBasic 0 0 0 0 50 50 20) (51, 255, 119) = (76.5, 255, 178.5) /\
   stepZones (withBasic 0 0 0 0 50 50 20) (5, 127, 4) = (7.5, 190.5, 6) /\
   stepZones (withBasic 0 0 0 0 50 50 20) (10, 20, 30) = (12, 24, 36) /\
   stepZones (withBasic 0 0 0 0 50 50 20) (250, 250, 250) = (255, 255, 255) /\
   map (pixelLoop (withBasic 0 0 0 0 50 (-30) 20))
       [[51; 255; 119; 255]; [5; 127; 4; 255]; [10; 20; 30; 255];
        [250; 250; 250; 255]]%Z
   = [[36; 178; 83; 255]; [4; 89; 3; 255]; [12; 24; 36; 255];
      [255; 255; 255; 255]]%Z).
Proof.
  split; [|split; [|split; [|split; [|split; [|split; [|split; [|split;
    [|split; [|split; [|split; [|split; [|split]]]]]]]]]]]].
  - intros H. apply zoneOf_spec. split; [reflexivity|exact H].
  - intros H. apply zoneOf_spec in H. destruct H as [H _]. discriminate H.
  - intros H. apply zoneOf_spec. split; [reflexivity|exact H].
  - intros H. apply zoneOf_spec. split; [reflexivity|exact H].
  - apply zoneOf_spec.
  - intros nl z1 z2. apply inBand_exclusive.
  - apply inBand_total.
  - intros p. unfold stepZones.
    destruct (zoneOf adj (normalizedLumOf p)) as [z|]; [right|left; reflexivity].
    exists z. repeat split. destruct z; reflexivity.
  - intros r g b z Hb Hc. now apply stepZones_in_band.
  - intros p z. apply stepZones_control_zero.
  - intros r g b Hl Hc.
    apply (stepZones_in_band adj r g b Midtones); [|exact Hc].
    unfold normalizedLumOf, luminanceOf. rewrite Hl. reflexivity.
  - intros r g b Hl Hc.
    apply (stepZones_in_band adj r g b Midtones); [|exact Hc].
    unfold normalizedLumOf, luminanceOf. rewrite Hl. reflexivity.
  - intros r g b Hl Hc.
    apply (stepZones_in_band adj r g b Shadows); [|exact Hc].
    unfold normalizedLumOf, luminanceOf. rewrite Hl. reflexivity.
  - repeat split; vm_compute; reflexivity.
Qed.

Lemma zone_partition_witness :
  zoneOf (withBasic 0 0 0 0 50 (-30) 20) 0.7 = Some Midtones /\
  zoneOf (withBasic 0 0 0 0 50 (-30) 20) 0.2999 = Some Shadows /\
  zoneOf (withBasic 0 0 0 0 50 (-30) 20) 0.3 = Some Midtones /\
  stepZones (withBasic 0 0 0 0 50 50 20) (51, 255, 119) = (76.5, 255, 178.5).
Proof.
  pose proof (zone_partition (withBasic 0 0 0 0 50 (-30) 20))
    as (H7 & _ & H2999 & H3 & _).
  split; [apply H7; reflexivity|].
  split; [apply H2999; reflexivity|].
  split; [apply H3; reflexivity|].
  pose proof (zone_partition (withBasic 0 0 0 0 50 50 20))
    as (_ & _ & _ & _ & _ & _ & _ & _ & _ & _ & Hpix & _).
  apply (Hpix 51 255 119); reflexivity.
Defined.

(** ** The curve widget *)

Module CurveEditorFacts.
Import CurveEditor CurveEditorVocabulary.

(** *** Reset *)

(** C5 as stated does not hold in its second half: after a press on point 1
    and a move, the widget is dragging point 1; the reset action emits the
    identity ramp and the widget is still dragging point 1. *)
Lemma reset_keeps_dragging :
  curve midDrag = [0; 40; 50; 75; 100] /\
  Dragging 1 (ui midDrag) /\
  curve (step midDrag Reset) = identityCurve /\
  Dragging 1 (ui (step midDrag Reset)) /\
  ~ Idle (ui (step midDrag Reset)).
Proof.
  split; [vm_compute; reflexivity|].
  split; [split; vm_compute; reflexivity|].
  split; [vm_compute; reflexivity|].
  split; [split; vm_compute; reflexivity|].
  intros [H _]. vm_compute in H. discriminate H.
Qed.

(** C5, amended: from every widget state, mid-drag or not, the reset
    action passes the identity ramp [0,25,50,75,100] to [onChange] and
    leaves the interaction state (dragging flag, drag index, hovered
    index) as it was; the widget is Idle after a reset exactly when it
    was Idle before it. *)
Theorem reset_curve (w : Widget) :
  snd (resetCurve (ui w)) = Some [0; 25; 50; 75; 100] /\
  curve (step w Reset) = [0; 25; 50; 75; 100] /\
  ui (step w Reset) = ui w /\
  (Idle (ui (step w Reset)) <-> Idle (ui w)).
Proof.
  split; [reflexivity|]. split; [reflexivity|]. split; [reflexivity|].
  split; intros H; exact H.
Qed.

Lemma reset_curve_witness :
  Idle (ui (step (mkWidget [0; 40; 50; 75; 100] initialState) Reset)).
Proof.
  apply (reset_curve (mkWidget [0; 40; 50; 75; 100] initialState)).
  split; reflexivity.
Defined.

(** *** Hit-testing *)

Lemma lowestHit_here (p : Point) (rest : list Point) (mx my : float) :
  isHit mx my p = true -> LowestHit (p :: rest) mx my 0.
Proof.
  intros H. split; [exists p; split; [reflexivity|exact H]|].
  intros j q Hj. inversion Hj.
Qed.

Lemma lowestHit_later (p : Point) (rest : list Point) (mx my : float)
    (i : nat) :
  isHit mx my p = false -> LowestHit rest mx my i ->
  LowestHit (p :: rest) mx my (S i).
Proof.
  intros Hp [Hi Hlow]. split; [exact Hi|].
  intros [|j] q Hj Hq.
  - injection Hq as <-. exact Hp.
  - apply (Hlow j q); [lia|exact Hq].
Qed.

Lemma noHit_cons (p : Point) (rest : list Point) (mx my : float) :
  isHit mx my p = false -> NoHit rest mx my -> NoHit (p :: rest) mx my.
Proof.
  intros Hp Hrest [|j] q Hq.
  - injection Hq as <-. exact Hp.
  - apply (Hrest j q Hq).
Qed.

(** Both loops agree with the first point within reach, whatever index
    [k] they start counting from. *)
Lemma loops_spec (points : list Point) (mx my : float) (st : State) :
  forall k : nat,
    (exists i, LowestHit points mx my i /\
               mouseDownLoop points k mx my st = startDrag st (k + i) /\
               hoverLoop points k mx my = Z.of_nat (k + i)) \/
    (NoHit points mx my /\
     mouseDownLoop points k mx my st = st /\
     hoverLoop points k mx my = (-1)%Z).
Proof.
  induction points as [|p rest IH]; intros k.
  - right. split; [|split; reflexivity].
    intros [|j] q Hq; discriminate Hq.
  - cbn [mouseDownLoop hoverLoop].
    destruct (distance mx my p <=? 8) eqn:Hp.
    + left. exists 0%nat. rewrite Nat.add_0_r.
      split; [now apply lowestHit_here|split; reflexivity].
    + destruct (IH (S k)) as [(i & Hi & Hd & Hh) | (Hn & Hd & Hh)].
      * left. exists (S i). rewrite Nat.add_succ_r.
        split; [now apply lowestHit_later|split; assumption].
      * right. split; [now apply noHit_cons|split; assumption].
Qed.

Lemma lowestHit_unique (points : list Point) (mx my : float) (i j : nat) :
  LowestHit points mx my i -> LowestHit points mx my j -> i = j.
Proof.
  intros [(p & Hp & Hpi) Hi] [(q & Hq & Hqj) Hj].
  destruct (Nat.lt_trichotomy i j) as [Hlt | [-> | Hlt]];
    [exfalso | reflexivity | exfalso].
  - pose proof (Hj i p Hlt Hp). congruence.
  - pose proof (Hi j q Hlt Hq). congruence.
Qed.

Lemma lowestHit_not_noHit (points : list Point) (mx my : float) (i : nat) :
  LowestHit points mx my i -> NoHit points mx my -> False.
Proof.
  intros [(p & Hp & Hpi) _] Hn. pose proof (Hn i p Hp). congruence.
Qed.

(** C8 (hit-testing): a point is within reach exactly when the computed
    distance [sqrt(dx*dx + dy*dy)] is at most 8.  For every pointer
    position, either some point is the lowest-indexed point within reach,
    and then a press starts dragging that point and a hover (a move while
    no drag is on) selects that same point, or no point is within reach,
    and then a press changes nothing and the hover selects none (-1).  In
    particular a pointer whose distance to every point exceeds 8, such as
    8.01, selects none: 8.01 to the right of the first point of the
    identity curve selects none, 8 to its right selects it.  The distance
    is the Euclidean one, [Math.sqrt(dx * dx + dy * dy)]: a pointer 7 to
    the right of and 7 above the first point (distance 9.9) selects none,
    one 5 to the right and 5 above (distance 7.07) selects it, and the
    offsets 3 and 4 give the distance 5. *)
Theorem hit_testing (c : list float) (st : State) (mx my : float) :
  (forall p, isHit mx my p = true <-> (distance mx my p <=? 8) = true) /\
  ((exists i,
       LowestHit (getCurvePoints c) mx my i /\
       (forall j, LowestHit (getCurvePoints c) mx my j -> j = i) /\
       handleMouseDown c st mx my = startDrag st i /\
       (isDragging st && (0 <=? dragIndex st)%Z = false ->
        hoveredIndex (fst (handleMouseMove c st mx my)) = Z.of_nat i))
   \/
   (NoHit (getCurvePoints c) mx my /\
    (forall j, ~ LowestHit (getCurvePoints c) mx my j) /\
    handleMouseDown c st mx my = st /\
    (isDragging st && (0 <=? dragIndex st)%Z = false ->
     hoveredIndex (fst (handleMouseMove c st mx my)) = (-1)%Z))) /\
  ((forall j q, nth_error (getCurvePoints c) j = Some q ->
                (8 <? distance mx my q) = true) ->
   handleMouseDown c st mx my = st /\
   hoverLoop (getCurvePoints c) 0 mx my = (-1)%Z) /\
  (handleMouseDown identityCurve initialState 28.01 180 = initialState /\
   hoveredIndex (fst (handleMouseMove identityCurve initialState 28.01 180))
   = (-1)%Z /\
   handleMouseDown identityCurve initialState 28 180
   = startDrag initialState 0 /\
   hoveredIndex (fst (handleMouseMove identityCurve initialState 28 180))
   = 0%Z) /\
  (forall p,
      distance mx my p
      = sqrt ((mx - x p) * (mx - x p) + (my - y p) * (my - y p))) /\
  (handleMouseDown identityCurve initialState 27 173 = initialState /\
   hoveredIndex (fst (handleMouseMove identityCurve initialState 27 173))
   = (-1)%Z /\
   handleMouseDown identityCurve initialState 25 175
   = startDrag initialState 0 /\
   hoveredIndex (fst (handleMouseMove identityCurve initialState 25 175))
   = 0%Z /\
   distance 23 176 (mkPoint 20 180) = 5).
Proof.
  split; [intros p; reflexivity|].
  split; [|split].
  - unfold handleMouseDown, handleMouseMove.
    destruct (loops_spec (getCurvePoints c) mx my st 0)
      as [(i & Hi & Hd & Hh) | (Hn & Hd & Hh)]; [left | right].
    + exists i. split; [exact Hi|].
      split; [intros j Hj; exact (lowestHit_unique _ _ _ j i Hj Hi)|].
      split; [exact Hd|]. intros ->. exact Hh.
    + split; [exact Hn|].
      split; [intros j Hj; exact (lowestHit_not_noHit _ _ _ j Hj Hn)|].
      split; [exact Hd|]. intros ->. exact Hh.
  - intros Hfar. unfold handleMouseDown.
    destruct (loops_spec (getCurvePoints c) mx my st 0)
      as [(i & ((p & Hp & Hhit) & _) & _) | (_ & Hd & Hh)];
      [exfalso | split; assumption].
    unfold isHit in Hhit. rewrite (ltb_not_leb _ _ (Hfar i p Hp)) in Hhit.
    discriminate Hhit.
  - split; [repeat split; vm_compute; reflexivity|].
    split; [intros p; reflexivity|].
    repeat split; vm_compute; reflexivity.
Qed.

Lemma hit_testing_witness :
  hoveredIndex (fst (handleMouseMove identityCurve initialState 101 96))
  = 2%Z.
Proof.
  destruct (hit_testing identityCurve initialState 101 96)
    as (_ & [(i & Hi & _ & _ & Hh) | (Hn & _)] & _).
  - rewrite (Hh eq_refl). change 2%Z with (Z.of_nat 2). f_equal.
    apply (lowestHit_unique (getCurvePoints identityCurve) 101 96).
    + exact Hi.
    + split; [eexists; split; [reflexivity|vm_compute; reflexivity]|].
      intros [|[|j]] q Hj Hq; [| |lia]; injection Hq as <-;
        vm_compute; reflexivity.
  - exfalso.
    pose proof (Hn 2%nat _ eq_refl) as H. vm_compute in H. discriminate H.
Defined.

(** Overlapping candidates: the lower index is selected. *)
Example overlapping_candidates :
  hoverLoop [mkPoint 0 0; mkPoint 1 0; mkPoint 2 0] 0 1.5 0 = 0%Z /\
  isHit 1.5 0 (mkPoint 1 0) = true /\ isHit 1.5 0 (mkPoint 2 0) = true /\
  mouseDownLoop [mkPoint 100 0; mkPoint 1 0; mkPoint 2 0] 0 1.5 0
    initialState = startDrag initialState 1.
Proof. repeat split; vm_compute; reflexivity. Qed.

End CurveEditorFacts.

(** *** Writes into the curve array *)

Section ArraySet.

Lemma array_set_length (a : list float) (i : nat) (v : float) :
  (i < length a)%nat -> length (JS.array_set a i v) = length a.
Proof.
  revert i. induction a as [|e rest IH]; intros [|i] H; simpl in *;
    try lia.
  rewrite IH by lia. reflexivity.
Qed.

Lemma array_set_same (a : list float) (i : nat) (v : float) :
  nth_error (JS.array_set a i v) i = Some v.
Proof.
  revert a. induction i as [|i IH]; intros [|e rest]; simpl; auto.
Qed.

Lemma array_set_other (a : list float) (i j : nat) (v : float) :
  (i < length a)%nat -> j <> i ->
  nth_error (JS.array_set a i v) j = nth_error a j.
Proof.
  revert i j. induction a as [|e rest IH]; intros [|i] [|j] H Hj;
    simpl in *; try lia; try reflexivity.
  apply IH; lia.
Qed.

End ArraySet.

(** Membership in an integer range. *)
Lemma in_zrange (lo : Z) (n : nat) (z : Z) :
  (lo <= z < lo + Z.of_nat n)%Z -> In z (zrange lo n).
Proof.
  intros H. unfold zrange. apply in_map_iff.
  exists (Z.to_nat (z - lo)). split; [lia|]. apply in_seq. lia.
Qed.

Module DragFacts.
Import CurveEditor CurveEditorVocabulary CurveEditorInvariant.

(** [Math.max(0, Math.min(100, e))] is NaN or within [0, 100]. *)
Lemma canvasToValue_range (coord : float) (isY : bool) :
  inRange 0 100 (canvasToValue coord isY) = true.
Proof.
  assert (H : forall e, inRange 0 100 (JS.max 0 (JS.min 100 e)) = true).
  { intros e.
    destruct (max_spec 0 (JS.min 100 e)) as [-> | (Hn & Hsel & H0 & _)];
      [reflexivity|].
    unfold inRange. rewrite Hn, H0. simpl.
    destruct Hsel as [-> | ->]; [reflexivity|].
    destruct (min_spec 100 e) as [E | (_ & _ & H100 & _)]; [|exact H100].
    rewrite E in Hn. discriminate Hn. }
  unfold canvasToValue. destruct isY; apply H.
Qed.

(** The inverse Y-mapping undoes the Y-mapping on every pixel row of the
    canvas: a row inside the plot area comes back as itself, a row outside
    it as the nearer edge of the plot area. *)
Lemma row_round_trip (row : Z) :
  isRow row ->
  valueToCanvas (canvasToValue (JS.of_Z row) true) true
  = JS.of_Z (clampZ 20 180 row).
Proof.
  unfold isRow. intros H.
  assert (E : forallb
                (fun r =>
                   PrimFloat.Leibniz.eqb
                     (valueToCanvas (canvasToValue (JS.of_Z r) true) true)
                     (JS.of_Z (clampZ 20 180 r)))
                (zrange 0 201) = true) by (vm_compute; reflexivity).
  rewrite forallb_forall in E.
  assert (Hin : In row (zrange 0 201)) by (apply in_zrange; lia).
  apply Leibniz.eqb_spec, (E row Hin).
Qed.

(** The points drawn for a curve: the x of point [j] is fixed by its
    index, its y by the curve value at [j]. *)
Lemma curvePointsFrom_nth (c : list float) (k j : nat) :
  nth_error (curvePointsFrom k c) j =
  option_map (fun v => {| x := valueToCanvas (JS.of_nat (k + j) * 25) false;
                          y := valueToCanvas v true |})
             (nth_error c j).
Proof.
  revert k j. induction c as [|v rest IH]; intros k [|j]; simpl;
    try reflexivity.
  - now rewrite Nat.add_0_r.
  - rewrite IH. now rewrite Nat.add_succ_r.
Qed.

Lemma curvePointsFrom_x (c : list float) (k : nat) :
  map x (curvePointsFrom k c) =
  map (fun j => valueToCanvas (JS.of_nat j * 25) false) (seq k (length c)).
Proof.
  revert k. induction c as [|v rest IH]; intros k; simpl;
    [reflexivity|]. now rewrite IH.
Qed.

(** What a pointer-move does to a widget that is dragging point [i]. *)
Lemma drag_step (w : Widget) (i : nat) (mx my : float) :
  Dragging i (ui w) ->
  handleMouseMove (curve w) (ui w) mx my
  = (ui w, Some (JS.array_set (curve w) i (canvasToValue my true))).
Proof.
  intros [Hd Hi]. unfold handleMouseMove. rewrite Hd, Hi.
  replace (0 <=? Z.of_nat i)%Z with true by (symmetry; apply Z.leb_le; lia).
  rewrite Nat2Z.id. reflexivity.
Qed.

(** The frame maintained by a run of pointer-moves during a drag. *)
Lemma drag_run (positions : list (float * float)) :
  forall (w : Widget) (i : nat),
    Dragging i (ui w) -> (i < length (curve w))%nat ->
    ui (run w (moves positions)) = ui w /\
    length (curve (run w (moves positions))) = length (curve w) /\
    forall j, j <> i ->
              nth_error (curve (run w (moves positions))) j
              = nth_error (curve w) j.
Proof.
  induction positions as [|[mx my] rest IH]; intros w i Hd Hi.
  - repeat split.
  - unfold moves, run in *. cbn [map fold_left fst snd].
    set (w1 := step w (MouseMove mx my)).
    assert (E : w1 = {| curve := JS.array_set (curve w) i
                                   (canvasToValue my true);
                        ui := ui w |}).
    { unfold w1, step, deliver. now rewrite (drag_step w i mx my Hd). }
    assert (Hd1 : Dragging i (ui w1)) by (rewrite E; exact Hd).
    assert (Hi1 : (i < length (curve w1))%nat)
      by (rewrite E; cbn [curve]; now rewrite array_set_length).
    destruct (IH w1 i Hd1 Hi1) as (Hu & Hl & Hn).
    split; [rewrite Hu, E; reflexivity|].
    split; [rewrite Hl, E; cbn [curve]; now apply array_set_length|].
    intros j Hj. rewrite (Hn j Hj), E. cbn [curve].
    now apply array_set_other.
Qed.

(** C9 (drag frame): while point [i] is dragged, a pointer-move passes to
    [onChange] the curve with entry [i] replaced by the inverse
    Y-mapping of the pointer, a value that is NaN or within [0, 100],
    and nothing else changes: after any run of pointer-moves the
    interaction state, the length of the curve, every other entry, the x
    of every drawn point and both coordinates of every other drawn point
    are what they were, and releasing or leaving ends the drag without
    touching the curve.  The value written for a pointer at row [my] is
    [Math.max(0, Math.min(100, (200 - 20 - my) / (200 - 2 * 20) * 100))];
    it inverts the Y-mapping: drawn again, the value of an integer row of
    the canvas lands on that row, or on the nearer edge of the plot area
    (20 or 180) when the row is outside it; rows 180, 116, 100, 90 and 20
    give 0, 40, 50, 56.25 and 100, and rows -5 and 500 are clamped to 100
    and 0. *)
Theorem drag_frame (w : Widget) (i : nat) (positions : list (float * float)) :
  Dragging i (ui w) -> (i < length (curve w))%nat ->
  (forall mx my,
      handleMouseMove (curve w) (ui w) mx my
      = (ui w, Some (JS.array_set (curve w) i (canvasToValue my true))) /\
      nth_error (curve (step w (MouseMove mx my))) i
      = Some (canvasToValue my true) /\
      inRange 0 100 (canvasToValue my true) = true) /\
  ui (run w (moves positions)) = ui w /\
  length (curve (run w (moves positions))) = length (curve w) /\
  (forall j, j <> i ->
             nth_error (curve (run w (moves positions))) j
             = nth_error (curve w) j) /\
  map x (getCurvePoints (curve (run w (moves positions))))
  = map x (getCurvePoints (curve w)) /\
  (forall j, j <> i ->
             nth_error (getCurvePoints (curve (run w (moves positions)))) j
             = nth_error (getCurvePoints (curve w)) j) /\
  (curve (step (run w (moves positions)) MouseUp)
   = curve (run w (moves positions)) /\
   Idle (ui (step (run w (moves positions)) MouseUp)) /\
   curve (step (run w (moves positions)) MouseLeave)
   = curve (run w (moves positions)) /\
   Idle (ui (step (run w (moves positions)) MouseLeave))) /\
  (forall mx my,
      nth_error (curve (step w (MouseMove mx my))) i
      = Some (JS.max 0 (JS.min 100 ((200 - 20 - my) / (200 - 2 * 20) * 100)))) /\
  (forall row,
      (0 <= row <= 200)%Z ->
      valueToCanvas (canvasToValue (JS.of_Z row) true) true
      = JS.of_Z (clampZ 20 180 row)) /\
  map (fun py => canvasToValue py true) [180; 116; 100; 90; 20; -5; 500]
  = [0; 40; 50; 56.25; 100; 100; 0].
Proof.
  intros Hd Hi.
  destruct (drag_run positions w i Hd Hi) as (Hu & Hl & Hn).
  split.
  { intros mx my. split; [now apply drag_step|].
    split; [|apply canvasToValue_range].
    unfold step, deliver. rewrite (drag_step w i mx my Hd).
    cbn [snd curve]. apply array_set_same. }
  split; [exact Hu|]. split; [exact Hl|]. split; [exact Hn|].
  split.
  { unfold getCurvePoints. rewrite !curvePointsFrom_x, Hl. reflexivity. }
  split.
  { intros j Hj. unfold getCurvePoints.
    rewrite !curvePointsFrom_nth, (Hn j Hj). reflexivity. }
  split; [repeat split|].
  split.
  { intros mx my. unfold step, deliver. rewrite (drag_step w i mx my Hd).
    cbn [snd curve]. apply array_set_same. }
  split; [intros row Hrow; now apply row_round_trip|].
  vm_compute. reflexivity.
Qed.

Lemma drag_frame_witness :
  curve (run midDrag (moves [(60, 90); (300, -5); (0, 500)]))
  = [0; 0; 50; 75; 100] /\
  nth_error (curve (run midDrag (moves [(60, 90); (300, -5); (0, 500)]))) 3
  = nth_error (curve midDrag) 3 /\
  nth_error (curve (step midDrag (MouseMove 60 90))) 1 = Some 56.25.
Proof.
  split; [vm_compute; reflexivity|].
  assert (Hd : Dragging 1 (ui midDrag)) by (split; vm_compute; reflexivity).
  assert (Hi : (1 < length (curve midDrag))%nat) by (vm_compute; lia).
  pose proof (drag_frame midDrag 1 [(60, 90); (300, -5); (0, 500)] Hd Hi)
    as (_ & _ & _ & Hother & _ & _ & _ & Hvalue & _).
  split; [apply Hother; lia|apply (Hvalue 60 90)].
Defined.

End DragFacts.

(** ** Shape of the pixel loop *)

Section LoopShape.

Variable adj : ColorAdjustments.

Lemma pixelLoop_same_length (data : list Z) :
  length (pixelLoop adj data) = length data.
Proof.
  induction data as [|r|r g|r g b|r g b a rest IH] using list_ind4;
    cbn [pixelLoop]; try destruct (adjustPixel adj _) as [[r' g'] b'];
    cbn [length]; try rewrite IH; reflexivity.
Qed.

(** X1. The loop writes back into the array it reads: the output has the
    length of the input, also when that length is not a multiple of 4. *)
Theorem pixelLoop_length (data : list Z) :
  length (pixelLoop adj data) = length data.
Proof.
  induction data as [|r|r g|r g b|r g b a rest IH] using list_ind4;
    cbn [pixelLoop]; try destruct (adjustPixel adj _) as [[r' g'] b'];
    cbn [length]; try rewrite IH; reflexivity.
Qed.

Lemma pixelLoop_cons4 (r g b a : Z) (rest : list Z) :
  exists r' g' b',
    pixelLoop adj (r :: g :: b :: a :: rest)
    = r' :: g' :: b' :: a :: pixelLoop adj rest /\
    pixelLoop adj [r; g; b; a] = [r'; g'; b'; a].
Proof.
  cbn [pixelLoop]. destruct (adjustPixel adj _) as [[r' g'] b'].
  now exists (JS.ToUint8Clamp r'), (JS.ToUint8Clamp g'), (JS.ToUint8Clamp b').
Qed.

Lemma pixelLoop_app (n : nat) :
  forall d1 d2 : list Z,
    length d1 = (4 * n)%nat ->
    pixelLoop adj (d1 ++ d2) = pixelLoop adj d1 ++ pixelLoop adj d2.
Proof.
  induction n as [|n IH]; intros d1 d2 Hlen.
  - destruct d1; [reflexivity|discriminate Hlen].
  - destruct d1 as [|r [|g [|b [|a rest]]]]; try (cbn in Hlen; lia).
    cbn [app].
    destruct (pixelLoop_cons4 r g b a (rest ++ d2)) as (r1 & g1 & b1 & E1 & F1).
    destruct (pixelLoop_cons4 r g b a rest) as (r2 & g2 & b2 & E2 & F2).
    rewrite E1, E2. rewrite F1 in F2. injection F2 as <- <- <-.
    cbn [app]. rewrite IH by (cbn in Hlen; lia). reflexivity.
Qed.

(** X2. The alpha byte of every pixel, the element at index [4k + 3], is
    stored as it was read, for every adjustment record. *)
Theorem alpha_untouched (k : nat) :
  forall (data : list Z) (a : Z),
    nth_error data (4 * k + 3) = Some a ->
    nth_error (pixelLoop adj data) (4 * k + 3) = Some a.
Proof.
  induction k as [|k IH]; intros data a H.
  - destruct data as [|r [|g [|b [|a' rest]]]]; try discriminate H.
    destruct (pixelLoop_cons4 r g b a' rest) as (r1 & g1 & b1 & E & _).
    rewrite E. exact H.
  - replace (4 * S k + 3)%nat with (4 + (4 * k + 3))%nat in * by lia.
    destruct data as [|r [|g [|b [|a' rest]]]]; try discriminate H.
    destruct (pixelLoop_cons4 r g b a' rest) as (r1 & g1 & b1 & E & _).
    rewrite E. cbn [Nat.add nth_error] in *. now apply IH.
Qed.

(** X3. No pixel depends on another: the four output bytes of pixel [k] are
    those the loop gives for that pixel alone. *)
Theorem pixel_locality (k : nat) (data : list Z) (r g b a : Z) :
  firstn 4 (skipn (4 * k) data) = [r; g; b; a] ->
  firstn 4 (skipn (4 * k) (pixelLoop adj data)) = pixelLoop adj [r; g; b; a].
Proof.
  intros H.
  assert (Hlen : (4 * k + 4 <= length data)%nat).
  { apply (f_equal (@length Z)) in H. rewrite length_firstn, length_skipn in H.
    cbn [length] in H. lia. }
  rewrite <- (firstn_skipn (4 * k) data) at 1.
  rewrite (pixelLoop_app k) by (rewrite length_firstn; lia).
  assert (Hk : length (pixelLoop adj (firstn (4 * k) data)) = (4 * k)%nat)
    by (rewrite pixelLoop_same_length, length_firstn; lia).
  rewrite skipn_app, Hk, Nat.sub_diag, skipn_all2 by lia.
  cbn [app skipn].
  rewrite <- (firstn_skipn 4 (skipn (4 * k) data)) at 1. rewrite H.
  rewrite (pixelLoop_app 1 [r; g; b; a]) by reflexivity.
  destruct (pixelLoop_cons4 r g b a []) as (r1 & g1 & b1 & _ & E).
  rewrite E. reflexivity.
Qed.

End LoopShape.

Lemma alpha_untouched_witness :
  nth_error (pixelLoop (withBasic 25 (-15) 30 15 (-25) 0 35)
               [12; 200; 90; 77; 255; 255; 255; 131]%Z) 7 = Some 131%Z.
Proof.
  apply (alpha_untouched (withBasic 25 (-15) 30 15 (-25) 0 35) 1
           [12; 200; 90; 77; 255; 255; 255; 131]%Z 131%Z).
  reflexivity.
Defined.

Lemma pixel_locality_witness :
  firstn 4 (skipn 4 (pixelLoop (withBasic 50 0 0 0 0 0 0)
                       [1; 2; 3; 4; 100; 100; 100; 255; 9; 9]%Z))
  = pixelLoop (withBasic 50 0 0 0 0 0 0) [100; 100; 100; 255]%Z.
Proof.
  apply (pixel_locality (withBasic 50 0 0 0 0 0 0) 1
           [1; 2; 3; 4; 100; 100; 100; 255; 9; 9]%Z 100 100 100 255)%Z.
  reflexivity.
Defined.

(** ** The zone step *)

Section ZoneStep.

(** X4. Only the control of the band a pixel lies in matters to the zone step:
    two records that agree on that one control treat the pixel alike,
    whatever their other two zone controls are. *)
Theorem zone_control_locality (a1 a2 : ColorAdjustments) (p : rgb) (z : Zone) :
  inBand z (normalizedLumOf p) = true ->
  zoneControl a1 z = zoneControl a2 z ->
  stepZones a1 p = stepZones a2 p.
Proof.
  intros Hb Hc. unfold stepZones.
  destruct (JS.neq (zoneControl a1 z) 0) eqn:Hn.
  - rewrite (proj2 (zoneOf_spec a1 _ z) (conj Hb Hn)).
    rewrite Hc in Hn.
    rewrite (proj2 (zoneOf_spec a2 _ z) (conj Hb Hn)).
    destruct z; cbn [zoneFactor zoneControl] in *; now rewrite Hc.
  - assert (E : forall a, JS.neq (zoneControl a z) 0 = false ->
                          zoneOf a (normalizedLumOf p) = None).
    { intros a Ha. destruct (zoneOf a (normalizedLumOf p)) as [z'|] eqn:E;
        [|reflexivity].
      apply zoneOf_spec in E. destruct E as [Hb' Hn'].
      rewrite (inBand_exclusive z' z _ Hb' Hb) in Hn'. congruence. }
    rewrite (E a1 Hn). rewrite Hc in Hn. rewrite (E a2 Hn). reflexivity.
Qed.

(** X5. A pixel whose luminance is NaN lies in no band and passes the zone
    step unchanged. *)
Theorem zone_nan (adj : ColorAdjustments) (p : rgb) :
  is_nan (normalizedLumOf p) = true -> stepZones adj p = p.
Proof.
  intros Hn. unfold stepZones.
  destruct (zoneOf adj (normalizedLumOf p)) as [z|] eqn:E; [|reflexivity].
  apply zoneOf_spec in E. destruct E as [Hb _]. exfalso.
  assert (Hc : forall x y, is_nan x = true -> (x <? y) = false /\
                           (y <? x) = false /\ (x <=? y) = false /\
                           (y <=? x) = false).
  { intros x y. unfold is_nan.
    rewrite FloatAxioms.eqb_spec, !FloatAxioms.ltb_spec, !FloatAxioms.leb_spec.
    unfold SFeqb, SFltb, SFleb.
    destruct (Prim2SF x) as [sx|sx| |sx mx ex];
      destruct (Prim2SF y) as [sy|sy| |sy my ey]; simpl;
      try (intros; repeat split; reflexivity);
      try discriminate;
      try (destruct sx; discriminate).
    all: destruct sx; simpl; rewrite ?Z.compare_refl, ?Pos.compare_cont_refl;
      discriminate. }
  destruct (Hc (normalizedLumOf p) 0.7 Hn) as (H1 & H2 & H3 & H4).
  destruct (Hc (normalizedLumOf p) 0.3 Hn) as (H5 & H6 & H7 & H8).
  destruct z; cbn [inBand] in Hb; rewrite ?H1, ?H2, ?H3, ?H4, ?H5, ?H6, ?H7,
    ?H8, ?andb_false_r in Hb; discriminate Hb.
Qed.

(** A number times zero is a zero or NaN. *)
Lemma mul_zero_cases (c : float) : c * 0 = 0 \/ c * 0 = -0 \/ c * 0 = nan.
Proof.
  rewrite <- (SF2Prim_Prim2SF (c * 0)), FloatAxioms.mul_spec.
  change (Prim2SF 0) with (S754_zero false).
  destruct (Prim2SF c) as [s|s| |s m e]; cbn.
  - destruct s; [right; left|left]; reflexivity.
  - right; right; reflexivity.
  - right; right; reflexivity.
  - destruct s; [right; left|left]; reflexivity.
Qed.

Lemma store_scaled_by_zero (c : float) :
  JS.ToUint8Clamp (clamp255 (c * 0)) = 0%Z.
Proof.
  destruct (mul_zero_cases c) as [-> | [-> | ->]]; vm_compute; reflexivity.
Qed.

(** X6. A zone control at -100 blacks out its band: whatever the working
    variables of a pixel are when they reach the zone step, if the branch
    of a zone whose control is -100 is taken, all three channels are
    stored as 0. *)
Theorem zone_blackout (adj : ColorAdjustments) (p : rgb) (z : Zone) :
  zoneOf adj (normalizedLumOf p) = Some z ->
  zoneControl adj z = -100 ->
  let '(r', g', b') := stepZones adj p in
  JS.ToUint8Clamp r' = 0%Z /\ JS.ToUint8Clamp g' = 0%Z /\
  JS.ToUint8Clamp b' = 0%Z.
Proof.
  intros Hz Hc. unfold stepZones. rewrite Hz.
  assert (Hf : zoneFactor adj z = 0).
  { destruct z; cbn [zoneFactor zoneControl] in *; rewrite Hc; reflexivity. }
  rewrite Hf. destruct p as [[r g] b]. cbn [scaleRgb].
  repeat split; apply store_scaled_by_zero.
Qed.

End ZoneStep.

Lemma zone_control_locality_witness :
  stepZones (withBasic 0 0 0 0 40 (-30) 20) (250, 250, 250)
  = stepZones (withBasic 0 0 0 0 40 70 (-100)) (250, 250, 250).
Proof.
  apply (zone_control_locality (withBasic 0 0 0 0 40 (-30) 20)
           (withBasic 0 0 0 0 40 70 (-100)) (250, 250, 250) Highlights);
    reflexivity.
Defined.

Lemma zone_blackout_witness :
  let '(r', g', b') :=
    stepZones (withBasic 0 0 0 0 0 0 (-100)) (40, 30, 90) in
  JS.ToUint8Clamp r' = 0%Z /\ JS.ToUint8Clamp g' = 0%Z /\
  JS.ToUint8Clamp b' = 0%Z.
Proof.
  apply (zone_blackout (withBasic 0 0 0 0 0 0 (-100)) (40, 30, 90) Shadows);
    reflexivity.
Defined.

Lemma zone_nan_witness :
  stepZones (withBasic 0 0 0 0 50 50 50) (200, nan, 10) = (200, nan, 10).
Proof.
  apply (zone_nan (withBasic 0 0 0 0 50 50 50) (200, nan, 10)). reflexivity.
Defined.

(** ** Exactness at the slider positions

    The sliders deliver integers between -100 and 100.  At these positions
    the bytes stored by the temperature, tint and contrast steps are those
    of exact arithmetic: the binary64 rounding errors never move a result
    across a rounding boundary. *)

Section Exactness.

Lemma in_byte_slider (c k : Z) :
  isByte c -> isSliderPosition k ->
  In (c, k) (list_prod (zrange 0 256) (zrange (-100) 201)).
Proof.
  unfold isByte, isSliderPosition. intros Hc Hk.
  apply in_prod; apply in_zrange; lia.
Qed.

(** [c + k/100 * 30] and [c - k/100 * 30], clamped and stored. *)
Lemma shift_enum (c k : Z) :
  isByte c -> isSliderPosition k ->
  JS.ToUint8Clamp (clamp255 (JS.of_Z c + sliderValue k / 100 * 30))
  = exactShift c k /\
  JS.ToUint8Clamp (clamp255 (JS.of_Z c - sliderValue k / 100 * 30))
  = exactShift c (- k).
Proof.
  intros Hc Hk.
  assert (E : forallb
                (fun ck =>
                   (JS.ToUint8Clamp
                      (clamp255 (JS.of_Z (fst ck)
                                 + sliderValue (snd ck) / 100 * 30))
                    =? exactShift (fst ck) (snd ck))%Z
                   && (JS.ToUint8Clamp
                         (clamp255 (JS.of_Z (fst ck)
                                    - sliderValue (snd ck) / 100 * 30))
                       =? exactShift (fst ck) (- snd ck))%Z)
                (list_prod (zrange 0 256) (zrange (-100) 201)) = true)
    by (vm_compute; reflexivity).
  rewrite forallb_forall in E. specialize (E _ (in_byte_slider c k Hc Hk)).
  cbn [fst snd] in E. apply andb_true_iff in E. destruct E as [E1 E2].
  split; now apply Z.eqb_eq.
Qed.

(** [factor * (c - 128) + 128], clamped and stored. *)
Lemma contrast_enum (c k : Z) :
  isByte c -> isSliderPosition k ->
  JS.ToUint8Clamp
    (clamp255
       (259 * (sliderValue k / 100 * 2.55 + 255)
        / (255 * (259 - sliderValue k / 100 * 2.55))
        * (JS.of_Z c - 128) + 128))
  = exactContrast c k.
Proof.
  intros Hc Hk.
  assert (E : forallb
                (fun ck =>
                   (JS.ToUint8Clamp
                      (clamp255
                         (259 * (sliderValue (snd ck) / 100 * 2.55 + 255)
                          / (255 * (259 - sliderValue (snd ck) / 100 * 2.55))
                          * (JS.of_Z (fst ck) - 128) + 128))
                    =? exactContrast (fst ck) (snd ck))%Z)
                (list_prod (zrange 0 256) (zrange (-100) 201)) = true)
    by (vm_compute; reflexivity).
  rewrite forallb_forall in E. specialize (E _ (in_byte_slider c k Hc Hk)).
  cbn [fst snd] in E. now apply Z.eqb_eq.
Qed.

Lemma exactShift_zero (c : Z) : isByte c -> exactShift c 0 = c.
Proof.
  unfold isByte, exactShift, clampZ, roundHalfEven. intros H.
  replace (10 * c + 3 * 0)%Z with (c * 10)%Z by lia.
  rewrite Z.div_mul, Z.mod_mul by lia. cbn. lia.
Qed.

Lemma exactContrast_zero (c : Z) : isByte c -> exactContrast c 0 = c.
Proof.
  unfold isByte, exactContrast, clampZ, roundHalfEven. intros H.
  replace (259 * (51 * 0 + 510000) * (c - 128)
           + 128 * (255 * (518000 - 51 * 0)))%Z
    with (c * (255 * (518000 - 51 * 0)))%Z by lia.
  rewrite Z.div_mul, Z.mod_mul by lia. cbn. lia.
Qed.

(** Only position 0 delivers a number equal to 0. *)
Lemma sliderValue_zero (k : Z) :
  isSliderPosition k -> JS.neq (sliderValue k) 0 = false -> k = 0%Z.
Proof.
  unfold isSliderPosition. intros Hk Hz.
  assert (E : forallb (fun j => JS.neq (sliderValue j) 0 || (j =? 0)%Z)
                      (zrange (-100) 201) = true)
    by (vm_compute; reflexivity).
  rewrite forallb_forall in E.
  assert (Hin : In k (zrange (-100) 201)) by (apply in_zrange; lia).
  specialize (E k Hin). rewrite Hz in E. now apply Z.eqb_eq.
Qed.

(** The steps after the first are skipped when their controls are 0. *)
Lemma zones_skipped (t ti c s : float) (p : rgb) :
  stepZones (withBasic t ti c s 0 0 0) p = p.
Proof.
  unfold stepZones, zoneOf. cbn [highlights midtones shadows withBasic].
  change (JS.neq 0 0) with false. now rewrite !andb_false_r.
Qed.

(** X7. With only the temperature slider off zero, at position [k], a pixel
    (r, g, b, a) is stored as the exactly rounded and clamped
    (r + 0.3 k, g, b - 0.3 k, a). *)
Theorem temperature_exact (k r g b a : Z) (rest : list Z) :
  isSliderPosition k -> isByte r -> isByte g -> isByte b ->
  pixelLoop (withBasic (sliderValue k) 0 0 0 0 0 0) (r :: g :: b :: a :: rest)
  = exactShift r k :: g :: exactShift b (- k) :: a
      :: pixelLoop (withBasic (sliderValue k) 0 0 0 0 0 0) rest.
Proof.
  intros Hk Hr Hg Hb. cbn [pixelLoop].
  unfold adjustPixel. rewrite zones_skipped.
  unfold stepSaturation, stepContrast, stepTint, stepTemperature.
  cbn [temperature tint contrast saturation withBasic].
  change (JS.neq 0 0) with false. cbv iota.
  destruct (JS.neq (sliderValue k) 0) eqn:Hz.
  - destruct (shift_enum r k Hr Hk) as [-> _].
    destruct (shift_enum b k Hb Hk) as [_ ->].
    now rewrite (store_load g Hg).
  - rewrite (sliderValue_zero k Hk Hz) in *.
    rewrite !exactShift_zero, !store_load by assumption. reflexivity.
Qed.

(** X8. With only the tint slider off zero, at position [k], green is stored as
    the exactly rounded and clamped g + 0.3 k and nothing else changes. *)
Theorem tint_exact (k r g b a : Z) (rest : list Z) :
  isSliderPosition k -> isByte r -> isByte g -> isByte b ->
  pixelLoop (withBasic 0 (sliderValue k) 0 0 0 0 0) (r :: g :: b :: a :: rest)
  = r :: exactShift g k :: b :: a
      :: pixelLoop (withBasic 0 (sliderValue k) 0 0 0 0 0) rest.
Proof.
  intros Hk Hr Hg Hb. cbn [pixelLoop].
  unfold adjustPixel. rewrite zones_skipped.
  unfold stepSaturation, stepContrast, stepTint, stepTemperature.
  cbn [temperature tint contrast saturation withBasic].
  change (JS.neq 0 0) with false. cbv iota.
  destruct (JS.neq (sliderValue k) 0) eqn:Hz.
  - destruct (shift_enum g k Hg Hk) as [-> _].
    now rewrite (store_load r Hr), (store_load b Hb).
  - rewrite (sliderValue_zero k Hk Hz) in *.
    rewrite !exactShift_zero, !store_load by assumption. reflexivity.
Qed.

(** X9. With only the contrast slider off zero, at position [k], each colour
    channel c is stored as the exactly rounded and clamped
    factor * (c - 128) + 128, factor = 259 (x + 255) / (255 (259 - x)),
    x = 2.55 k / 100; in particular 128 stays 128 at every position. *)
Theorem contrast_exact (k r g b a : Z) (rest : list Z) :
  isSliderPosition k -> isByte r -> isByte g -> isByte b ->
  pixelLoop (withBasic 0 0 (sliderValue k) 0 0 0 0) (r :: g :: b :: a :: rest)
  = exactContrast r k :: exactContrast g k :: exactContrast b k :: a
      :: pixelLoop (withBasic 0 0 (sliderValue k) 0 0 0 0) rest /\
  exactContrast 128 k = 128%Z.
Proof.
  intros Hk Hr Hg Hb. split.
  - cbn [pixelLoop].
    unfold adjustPixel. rewrite zones_skipped.
    unfold stepSaturation, stepContrast, stepTint, stepTemperature.
    cbn [temperature tint contrast saturation withBasic].
    change (JS.neq 0 0) with false. cbv iota.
    destruct (JS.neq (sliderValue k) 0) eqn:Hz.
    + cbv zeta.
      rewrite (contrast_enum r k Hr Hk), (contrast_enum g k Hg Hk),
        (contrast_enum b k Hb Hk). reflexivity.
    + rewrite (sliderValue_zero k Hk Hz) in *.
      rewrite !exactContrast_zero, !store_load by assumption. reflexivity.
  - unfold isSliderPosition in Hk.
    unfold exactContrast, clampZ, roundHalfEven.
    replace (259 * (51 * k + 510000) * (128 - 128)
             + 128 * (255 * (518000 - 51 * k)))%Z
      with (128 * (255 * (518000 - 51 * k)))%Z by lia.
    rewrite Z.div_mul, Z.mod_mul by lia.
    replace (2 * 0 <? 255 * (518000 - 51 * k))%Z with true
      by (symmetry; apply Z.ltb_lt; lia).
    lia.
Qed.

End Exactness.

Lemma temperature_exact_witness :
  pixelLoop (withBasic 50 0 0 0 0 0 0) [100; 100; 100; 255]%Z
  = [115; 100; 85; 255]%Z.
Proof.
  apply (temperature_exact 50 100 100 100 255 []);
    unfold isSliderPosition, isByte; lia.
Defined.

Lemma tint_exact_witness :
  pixelLoop (withBasic 0 (-15) 0 0 0 0 0) [7; 2; 250; 0]%Z
  = [7; 0; 250; 0]%Z.
Proof.
  apply (tint_exact (-15) 7 2 250 0 []);
    unfold isSliderPosition, isByte; lia.
Defined.

Lemma contrast_exact_witness :
  pixelLoop (withBasic 0 0 100 0 0 0 0) [128; 0; 255; 9]%Z
  = [128; 0; 255; 9]%Z.
Proof.
  apply (contrast_exact 100 128 0 255 9 []);
    unfold isSliderPosition, isByte; lia.
Defined.

(** ** Runs of the curve widget *)

Module WidgetRuns.
Import CurveEditor CurveEditorVocabulary CurveEditorInvariant.

Lemma getCurvePoints_length (c : list float) :
  length (getCurvePoints c) = length c.
Proof.
  unfold getCurvePoints. generalize 0%nat.
  induction c as [|v rest IH]; intros k; simpl; [reflexivity|].
  now rewrite IH.
Qed.

Lemma lowestHit_bound (points : list Point) (mx my : float) (i : nat) :
  LowestHit points mx my i -> (i < length points)%nat.
Proof.
  intros [(p & Hp & _) _]. apply nth_error_Some. congruence.
Qed.

(** What the two handlers that search a point leave in the state. *)
Lemma press_cases (c : list float) (st : State) (mx my : float) :
  handleMouseDown c st mx my = st \/
  exists i, (i < length c)%nat /\
            handleMouseDown c st mx my = startDrag st i.
Proof.
  unfold handleMouseDown.
  destruct (CurveEditorFacts.loops_spec (getCurvePoints c) mx my st 0)
    as [(i & Hi & Hd & _) | (_ & Hd & _)]; [right | left; exact Hd].
  exists i. split; [|exact Hd].
  rewrite <- getCurvePoints_length. exact (lowestHit_bound _ _ _ _ Hi).
Qed.

Lemma hover_cases (c : list float) (st : State) (mx my : float) :
  hoverLoop (getCurvePoints c) 0 mx my = (-1)%Z \/
  exists i, (i < length c)%nat /\
            hoverLoop (getCurvePoints c) 0 mx my = Z.of_nat i.
Proof.
  destruct (CurveEditorFacts.loops_spec (getCurvePoints c) mx my st 0)
    as [(i & Hi & _ & Hh) | (_ & _ & Hh)]; [right | left; exact Hh].
  exists i. split; [|exact Hh].
  rewrite <- getCurvePoints_length. exact (lowestHit_bound _ _ _ _ Hi).
Qed.

Lemma step_wellFormed (w : Widget) (e : Event) :
  WellFormed w -> WellFormed (step w e).
Proof.
  intros (Hlen & Hdrag & Hhov). unfold WellFormed, stateFits, Idle in *.
  destruct e as [mx my|mx my| | |]; cbn [step deliver fst snd curve ui].
  - split; [exact Hlen|].
    destruct (press_cases (curve w) (ui w) mx my) as [-> | (i & Hi & ->)].
    + split; assumption.
    + cbn. split; [right; split; [reflexivity|lia]|exact Hhov].
  - unfold handleMouseMove.
    destruct (isDragging (ui w) && (0 <=? dragIndex (ui w))%Z) eqn:Hd.
    + cbn [fst snd]. apply andb_true_iff in Hd. destruct Hd as [Hd1 Hd2].
      destruct Hdrag as [[Hf _] | [_ Hi]]; [congruence|].
      split; [|split; [right; split; [exact Hd1|exact Hi]|exact Hhov]].
      rewrite array_set_length; [exact Hlen|lia].
    + cbn [fst snd isDragging dragIndex hoveredIndex].
      split; [exact Hlen|]. split; [exact Hdrag|].
      destruct (hover_cases (curve w) (ui w) mx my) as [-> | (i & Hi & ->)];
        lia.
  - split; [exact Hlen|]. split; [left; split; reflexivity|exact Hhov].
  - split; [exact Hlen|]. split; [left; split; reflexivity|cbn; lia].
  - split; [reflexivity|]. split; assumption.
Qed.

(** X10. Starting from the state a mounted widget has over a five-point curve,
    no sequence of presses, moves, releases, leaves and resets takes the
    widget out of shape: the curve keeps five entries, the widget is Idle
    or drags one of the five points, and the hovered index is -1 or one of
    0..4.  A drag therefore never writes past the end of the curve. *)
Theorem widget_invariant (c : list float) (events : list Event) :
  length c = 5%nat ->
  WellFormed (run (mkWidget c initialState) events).
Proof.
  intros Hlen.
  assert (H0 : WellFormed (mkWidget c initialState)).
  { split; [exact Hlen|]. split; [left; split; reflexivity|cbn; lia]. }
  revert H0. unfold run. generalize (mkWidget c initialState).
  induction events as [|e rest IH]; intros w Hw; [exact Hw|].
  cbn [fold_left]. apply IH, step_wellFormed, Hw.
Qed.

Lemma array_set_range (a : list float) (i : nat) (v : float) :
  valuesInRange a -> inRange 0 100 v = true ->
  valuesInRange (JS.array_set a i v).
Proof.
  unfold valuesInRange. intros Ha Hv. revert a Ha.
  induction i as [|i IH]; intros [|e rest] Ha; cbn [JS.array_set].
  - repeat constructor. exact Hv.
  - inversion Ha; subst. constructor; assumption.
  - constructor; [reflexivity|]. apply IH. constructor.
  - inversion Ha; subst. constructor; [assumption|]. now apply IH.
Qed.

(** X11. Silent clamping: over a five-point curve, with the drag index (if
    a drag is on) inside the curve, if the values of the curve are each
    NaN or within [0, 100], they are so after every sequence of events; no
    event hands [onChange] a value outside the range. *)
Theorem curve_values_stay_in_range (w : Widget) (events : list Event) :
  WellFormed w -> valuesInRange (curve w) ->
  valuesInRange (curve (run w events)).
Proof.
  revert w. unfold run.
  induction events as [|e rest IH]; intros w Hwf Hw; [exact Hw|].
  cbn [fold_left]. apply IH; [apply step_wellFormed, Hwf|].
  destruct e as [mx my|mx my| | |]; cbn [step deliver fst snd curve];
    try exact Hw.
  - unfold handleMouseMove.
    destruct (isDragging (ui w) && (0 <=? dragIndex (ui w))%Z);
      cbn [snd]; [|exact Hw].
    apply array_set_range; [exact Hw|apply DragFacts.canvasToValue_range].
  - repeat constructor.
Qed.

Lemma quiet_step (w : Widget) (e : Event) :
  isDragging (ui w) = false -> isPressOrReset e = false ->
  curve (step w e) = curve w /\ isDragging (ui (step w e)) = false.
Proof.
  intros Hd He.
  destruct e as [mx my|mx my| | |]; try discriminate He;
    cbn [step deliver fst snd curve ui].
  - unfold handleMouseMove. rewrite Hd. cbn. split; reflexivity.
  - split; reflexivity.
  - split; reflexivity.
Qed.

Lemma quiet_run (events : list Event) :
  forall w : Widget,
    isDragging (ui w) = false ->
    forallb (fun e => negb (isPressOrReset e)) events = true ->
    curve (run w events) = curve w /\
    isDragging (ui (run w events)) = false.
Proof.
  unfold run.
  induction events as [|e rest IH]; intros w Hd He;
    [split; [reflexivity|exact Hd]|].
  cbn [forallb] in He. apply andb_true_iff in He. destruct He as [He Hrest].
  apply negb_true_iff in He.
  destruct (quiet_step w e Hd He) as [Hc Hd'].
  cbn [fold_left]. destruct (IH (step w e) Hd' Hrest) as [Hc2 Hd2].
  split; [now rewrite Hc2|exact Hd2].
Qed.

(** X12. Hovering changes nothing: from a state that is not dragging, a run
    without a press and without a reset (moves, releases, leaves in any
    order) leaves the curve as it was and starts no drag. *)
Theorem curve_changes_only_by_drag_or_reset (w : Widget)
    (events : list Event) :
  isDragging (ui w) = false ->
  forallb (fun e => negb (isPressOrReset e)) events = true ->
  curve (run w events) = curve w /\
  isDragging (ui (run w events)) = false.
Proof.
  revert w. unfold run.
  induction events as [|e rest IH]; intros w Hd He;
    [split; [reflexivity|exact Hd]|].
  cbn [forallb] in He. apply andb_true_iff in He. destruct He as [He Hrest].
  apply negb_true_iff in He.
  destruct (quiet_step w e Hd He) as [Hc Hd'].
  cbn [fold_left]. destruct (IH (step w e) Hd' Hrest) as [Hc2 Hd2].
  split; [now rewrite Hc2|exact Hd2].
Qed.

Lemma array_set_twice (a : list float) (i : nat) (v v' : float) :
  (i < length a)%nat ->
  JS.array_set (JS.array_set a i v) i v' = JS.array_set a i v'.
Proof.
  revert i. induction a as [|e rest IH]; intros [|i] H; cbn in *;
    try lia; try reflexivity.
  rewrite IH by lia. reflexivity.
Qed.

Lemma drag_moves_last (positions : list (float * float)) :
  forall (w : Widget) (i : nat) (mx my : float),
    Dragging i (ui w) -> (i < length (curve w))%nat ->
    run w (moves (positions ++ [(mx, my)]))
    = {| curve := JS.array_set (curve w) i (canvasToValue my true);
         ui := ui w |}.
Proof.
  induction positions as [|[px py] rest IH]; intros w i mx my Hd Hi.
  - unfold moves, run. cbn [app map fold_left fst snd step deliver].
    now rewrite (DragFacts.drag_step w i mx my Hd).
  - unfold moves, run in *. cbn [app map fold_left fst snd].
    set (w1 := step w (MouseMove px py)).
    assert (E : w1 = {| curve := JS.array_set (curve w) i
                                   (canvasToValue py true);
                        ui := ui w |}).
    { unfold w1, step, deliver.
      now rewrite (DragFacts.drag_step w i px py Hd). }
    assert (Hd1 : Dragging i (ui w1)) by (rewrite E; exact Hd).
    assert (Hi1 : (i < length (curve w1))%nat)
      by (rewrite E; cbn [curve]; now rewrite array_set_length).
    rewrite (IH w1 i mx my Hd1 Hi1), E. cbn [curve ui].
    now rewrite array_set_twice.
Qed.

(** X13. A drag has no memory: after any run of pointer-moves while point [i]
    is dragged, the curve is the one before the run with entry [i]
    replaced by the inverse Y-mapping of the last pointer position,
    [Math.max(0, Math.min(100, (200 - 20 - my) / (200 - 2 * 20) * 100))];
    the positions passed through on the way leave no trace. *)
Theorem drag_is_memoryless (w : Widget) (i : nat)
    (positions : list (float * float)) (mx my : float) :
  Dragging i (ui w) -> (i < length (curve w))%nat ->
  curve (run w (moves (positions ++ [(mx, my)])))
  = JS.array_set (curve w) i (canvasToValue my true) /\
  ui (run w (moves (positions ++ [(mx, my)]))) = ui w /\
  nth_error (curve (run w (moves (positions ++ [(mx, my)])))) i
  = Some (JS.max 0 (JS.min 100 ((200 - 20 - my) / (200 - 2 * 20) * 100))).
Proof.
  intros Hd Hi. rewrite (drag_moves_last positions w i mx my Hd Hi).
  split; [reflexivity|]. split; [reflexivity|].
  cbn [curve]. apply array_set_same.
Qed.

Lemma run_app (w : Widget) (es1 es2 : list Event) :
  run w (es1 ++ es2) = run (run w es1) es2.
Proof. unfold run. apply fold_left_app. Qed.

(** X14. A whole gesture.  A press within reach of point [i] (the first such
    point), any moves ending at row [ly], and a release set entry [i] of
    the curve to the inverse Y-mapping of [ly],
    [Math.max(0, Math.min(100, (200 - 20 - ly) / (200 - 2 * 20) * 100))],
    change no other entry,
    and leave the widget Idle with its hovered index as before the press.
    A press out of reach of every point, in a state that is not dragging,
    followed by any moves and a release changes no entry at all. *)
Theorem gesture (w : Widget) (mx my : float)
    (positions : list (float * float)) (lx ly : float) :
  (forall i,
      LowestHit (getCurvePoints (curve w)) mx my i ->
      run w (MouseDown mx my :: moves (positions ++ [(lx, ly)]) ++ [MouseUp])
      = {| curve := JS.array_set (curve w) i (canvasToValue ly true);
           ui := {| isDragging := false; dragIndex := -1;
                    hoveredIndex := hoveredIndex (ui w);
                    cursor := cursor (ui w) |} |}) /\
  (NoHit (getCurvePoints (curve w)) mx my ->
   isDragging (ui w) = false ->
   curve (run w (MouseDown mx my :: moves positions ++ [MouseUp]))
   = curve w) /\
  (forall i,
      LowestHit (getCurvePoints (curve w)) mx my i ->
      nth_error
        (curve (run w (MouseDown mx my
                         :: moves (positions ++ [(lx, ly)]) ++ [MouseUp]))) i
      = Some (JS.max 0 (JS.min 100 ((200 - 20 - ly) / (200 - 2 * 20) * 100)))).
Proof.
  assert (Hhit : forall i,
             LowestHit (getCurvePoints (curve w)) mx my i ->
             run w (MouseDown mx my
                      :: moves (positions ++ [(lx, ly)]) ++ [MouseUp])
             = {| curve := JS.array_set (curve w) i (canvasToValue ly true);
                  ui := {| isDragging := false; dragIndex := -1;
                           hoveredIndex := hoveredIndex (ui w);
                           cursor := cursor (ui w) |} |});
    [|split; [exact Hhit|split;
        [|intros i Hi; rewrite (Hhit i Hi); cbn [curve];
          apply array_set_same]]].
  - intros i Hi.
    assert (Hlt : (i < length (curve w))%nat)
      by (rewrite <- getCurvePoints_length; exact (lowestHit_bound _ _ _ _ Hi)).
    assert (Hpress : step w (MouseDown mx my)
                     = {| curve := curve w; ui := startDrag (ui w) i |}).
    { unfold step, deliver, handleMouseDown. cbn [fst snd].
      destruct (CurveEditorFacts.loops_spec (getCurvePoints (curve w)) mx my
                  (ui w) 0) as [(j & Hj & Hd & _) | (Hn & _)].
      - rewrite Hd, (CurveEditorFacts.lowestHit_unique _ _ _ _ _ Hj Hi).
        reflexivity.
      - exfalso. exact (CurveEditorFacts.lowestHit_not_noHit _ _ _ _ Hi Hn). }
    change (MouseDown mx my :: moves (positions ++ [(lx, ly)]) ++ [MouseUp])
      with ([MouseDown mx my]
              ++ moves (positions ++ [(lx, ly)]) ++ [MouseUp]).
    rewrite !run_app.
    change (run w [MouseDown mx my]) with (step w (MouseDown mx my)).
    rewrite Hpress.
    rewrite (drag_moves_last positions _ i lx ly);
      [reflexivity|split; reflexivity|exact Hlt].
  - intros Hn Hd.
    assert (Hpress : step w (MouseDown mx my) = w).
    { unfold step, deliver, handleMouseDown. cbn [fst snd].
      destruct (CurveEditorFacts.loops_spec (getCurvePoints (curve w)) mx my
                  (ui w) 0) as [(j & Hj & _) | (_ & Hdn & _)].
      - exfalso. exact (CurveEditorFacts.lowestHit_not_noHit _ _ _ _ Hj Hn).
      - rewrite Hdn. now destruct w. }
    change (MouseDown mx my :: moves positions ++ [MouseUp])
      with ([MouseDown mx my] ++ moves positions ++ [MouseUp]).
    rewrite run_app.
    change (run w [MouseDown mx my]) with (step w (MouseDown mx my)).
    rewrite Hpress.
    apply quiet_run; [exact Hd|].
    rewrite forallb_app. cbn. rewrite andb_true_r.
    unfold moves. rewrite forallb_forall. intros e He.
    apply in_map_iff in He. destruct He as (m & <- & _). reflexivity.
Qed.

End WidgetRuns.

Module WidgetRunsWitnesses.
Import CurveEditor CurveEditorVocabulary CurveEditorInvariant WidgetRuns.

Lemma widget_invariant_witness :
  WellFormed
    (run (mkWidget identityCurve initialState)
         [MouseDown 60 140; MouseMove 60 116; Reset; MouseMove 300 (-5);
          MouseLeave; MouseMove 100 101]).
Proof.
  apply (widget_invariant identityCurve
           [MouseDown 60 140; MouseMove 60 116; Reset; MouseMove 300 (-5);
            MouseLeave; MouseMove 100 101]).
  reflexivity.
Defined.

Lemma curve_values_stay_in_range_witness :
  valuesInRange
    (curve (run (mkWidget identityCurve initialState)
                [MouseDown 60 140; MouseMove 60 (-1000); MouseUp])).
Proof.
  apply (curve_values_stay_in_range (mkWidget identityCurve initialState)
           [MouseDown 60 140; MouseMove 60 (-1000); MouseUp]).
  - split; [reflexivity|]. split; [left; split; reflexivity|cbn; lia].
  - repeat constructor.
Defined.

Lemma curve_changes_only_by_drag_or_reset_witness :
  curve (run (mkWidget [0; 40; 50; 75; 100] initialState)
             [MouseMove 60 116; MouseUp; MouseMove 100 100; MouseLeave])
  = [0; 40; 50; 75; 100].
Proof.
  apply (curve_changes_only_by_drag_or_reset
           (mkWidget [0; 40; 50; 75; 100] initialState)
           [MouseMove 60 116; MouseUp; MouseMove 100 100; MouseLeave]);
    reflexivity.
Defined.

Lemma drag_is_memoryless_witness :
  curve (run midDrag (moves ([(60, 90); (300, -5)] ++ [(61, 100)])))
  = JS.array_set (curve midDrag) 1 (canvasToValue 100 true).
Proof.
  apply (drag_is_memoryless midDrag 1 [(60, 90); (300, -5)] 61 100).
  - split; vm_compute; reflexivity.
  - vm_compute. lia.
Defined.

Lemma gesture_witness :
  run (mkWidget identityCurve initialState)
      (MouseDown 101 96 :: moves ([(90, 10)] ++ [(120, 60)]) ++ [MouseUp])
  = {| curve := JS.array_set identityCurve 2 (canvasToValue 60 true);
       ui := {| isDragging := false; dragIndex := -1; hoveredIndex := -1;
                cursor := CursorUnset |} |}.
Proof.
  apply (gesture (mkWidget identityCurve initialState) 101 96 [(90, 10)]
           120 60).
  split; [eexists; split; [reflexivity|vm_compute; reflexivity]|].
  intros [|[|j]] q Hj Hq; [| |lia]; injection Hq as <-;
    vm_compute; reflexivity.
Defined.

End WidgetRunsWitnesses.

(** ** Geometry of the curve widget *)

Module WidgetGeometry.
Import CurveEditor CurveEditorVocabulary CurveEditorInvariant CurveDrawing.


(** X15. The dragged point follows the pointer: a move to the integer pixel row
    [row] while point [i] is dragged draws point [i] at exactly that row,
    or at the nearer edge of the plot area (20 or 180) if the row is
    outside it; its x stays on its grid line. *)
Theorem dragged_point_follows_pointer (w : Widget) (i : nat) (mx : float)
    (row : Z) :
  Dragging i (ui w) -> (i < length (curve w))%nat -> isRow row ->
  nth_error (getCurvePoints (curve (step w (MouseMove mx (JS.of_Z row))))) i
  = Some {| x := valueToCanvas (JS.of_nat i * 25) false;
            y := JS.of_Z (clampZ 20 180 row) |}.
Proof.
  intros Hd Hi Hrow.
  unfold step, deliver. rewrite (DragFacts.drag_step w i mx _ Hd).
  cbn [snd curve]. unfold getCurvePoints.
  rewrite DragFacts.curvePointsFrom_nth, array_set_same. cbn [option_map].
  now rewrite DragFacts.row_round_trip.
Qed.

(** X16. Value to canvas and back is not exact in binary64, but for every
    integer level 0..100, on both axes, the value that comes back is
    within 1.5e-14 of the level, and the five levels of the identity ramp
    (the multiples of 25) come back exactly. *)
Theorem level_round_trip (v : Z) (isY : bool) :
  (0 <= v <= 100)%Z ->
  (abs (canvasToValue (valueToCanvas (JS.of_Z v) isY) isY - JS.of_Z v)
   <=? 1.5e-14) = true /\
  ((v mod 25 = 0)%Z ->
   canvasToValue (valueToCanvas (JS.of_Z v) isY) isY = JS.of_Z v).
Proof.
  intros H.
  assert (E : forallb
                (fun l =>
                   forallb
                     (fun a =>
                        (abs (canvasToValue (valueToCanvas (JS.of_Z l) a) a
                              - JS.of_Z l) <=? 1.5e-14)
                        && (negb (l mod 25 =? 0)%Z
                            || PrimFloat.Leibniz.eqb
                                 (canvasToValue (valueToCanvas (JS.of_Z l) a) a)
                                 (JS.of_Z l)))
                     [true; false])
                (zrange 0 101) = true) by (vm_compute; reflexivity).
  rewrite forallb_forall in E.
  assert (Hin : In v (zrange 0 101)) by (apply in_zrange; lia).
  specialize (E v Hin). rewrite forallb_forall in E.
  assert (Ha : In isY [true; false]) by (destruct isY; cbn; auto).
  specialize (E isY Ha). apply andb_true_iff in E. destruct E as [E1 E2].
  split; [exact E1|]. intros Hm.
  apply Z.eqb_eq in Hm. rewrite Hm in E2. cbn in E2.
  now apply Leibniz.eqb_spec.
Qed.

(** X17. The x of the control points are the x of the vertical grid lines: for
    every curve of at most five entries, point [j] sits on grid line
    [j], whatever the curve values are. *)
Theorem points_on_grid_lines (c : list float) :
  (length c <= 5)%nat ->
  map x (getCurvePoints c) = firstn (length c) gridLines.
Proof.
  intros H. unfold getCurvePoints. rewrite DragFacts.curvePointsFrom_x.
  destruct (length c) as [|[|[|[|[|[|n]]]]]]; try lia;
    vm_compute; reflexivity.
Qed.

Lemma fillLoop_later (k : nat) (points : list Point) :
  fillLoop (S k) points = strokeLoop points.
Proof.
  revert k. induction points as [|p rest IH]; intros k; [reflexivity|].
  destruct rest as [|q rest']; [reflexivity|].
  change (fillLoop (S k) (p :: q :: rest'))
    with (bezierTo p q :: fillLoop (S (S k)) (q :: rest')).
  change (strokeLoop (p :: q :: rest'))
    with (bezierTo p q :: strokeLoop (q :: rest')).
  now rewrite IH.
Qed.

Lemma strokeLoop_length (points : list Point) :
  length (strokeLoop points) = pred (length points).
Proof.
  induction points as [|p rest IH]; [reflexivity|].
  destruct rest as [|q rest']; [reflexivity|].
  change (strokeLoop (p :: q :: rest'))
    with (bezierTo p q :: strokeLoop (q :: rest')).
  cbn [length] in *. now rewrite IH.
Qed.

(** X18. The filled area is bounded by the stroked curve: for two or more
    points the fill path goes from the bottom-left corner of the plot to
    the first point, runs through exactly the Bezier segments of the
    stroke path, one per pair of consecutive points, drops to the
    bottom-right corner and closes; with fewer than two points neither
    path is drawn. *)
Theorem fill_follows_stroke (points : list Point) :
  (forall p0 p1 rest,
      points = p0 :: p1 :: rest ->
      strokePath points = MoveTo (x p0) (y p0) :: strokeLoop points /\
      fillPath points
      = MoveTo 20 180 :: LineTo (x p0) (y p0) :: strokeLoop points
          ++ [LineTo 180 180; ClosePath] /\
      length (strokeLoop points) = S (length rest)) /\
  ((length points <= 1)%nat ->
   strokePath points = [] /\ fillPath points = []).
Proof.
  split.
  - intros p0 p1 rest ->. split; [reflexivity|]. split.
    + unfold fillPath. cbn [length Nat.ltb Nat.leb].
      change (fillLoop 0 (p0 :: p1 :: rest))
        with (LineTo (x p0) (y p0) :: bezierTo p0 p1
                :: fillLoop 1 (p1 :: rest)).
      rewrite fillLoop_later. reflexivity.
    + rewrite strokeLoop_length. reflexivity.
  - intros H. destruct points as [|p0 [|p1 rest]]; cbn in H; try lia;
      split; reflexivity.
Qed.

(** X19. The Bezier segments of a five-point curve: both handles of a segment
    lie on the vertical line midway between the grid lines of its two end
    points (x = 40, 80, 120, 160), the first at the height of the start
    point and the second at the height of the end point, so the curve
    passes through every control point with a horizontal tangent. *)
Theorem bezier_handles (v0 v1 v2 v3 v4 : float) :
  strokeLoop (getCurvePoints [v0; v1; v2; v3; v4])
  = [ BezierCurveTo 40 (valueToCanvas v0 true) 40 (valueToCanvas v1 true)
        60 (valueToCanvas v1 true);
      BezierCurveTo 80 (valueToCanvas v1 true) 80 (valueToCanvas v2 true)
        100 (valueToCanvas v2 true);
      BezierCurveTo 120 (valueToCanvas v2 true) 120 (valueToCanvas v3 true)
        140 (valueToCanvas v3 true);
      BezierCurveTo 160 (valueToCanvas v3 true) 160 (valueToCanvas v4 true)
        180 (valueToCanvas v4 true) ].
Proof. vm_compute. reflexivity. Qed.

End WidgetGeometry.

Module WidgetGeometryWitnesses.
Import CurveEditor CurveEditorVocabulary CurveEditorInvariant CurveDrawing
  WidgetGeometry.

Lemma dragged_point_follows_pointer_witness :
  nth_error (getCurvePoints (curve (step midDrag (MouseMove 3 (JS.of_Z 7))))) 1
  = Some {| x := 60; y := 20 |}.
Proof.
  apply (dragged_point_follows_pointer midDrag 1 3 7).
  - split; vm_compute; reflexivity.
  - vm_compute. lia.
  - unfold isRow. lia.
Defined.

Lemma level_round_trip_witness :
  canvasToValue (valueToCanvas 75 true) true = 75.
Proof.
  apply (level_round_trip 75 true); [lia|reflexivity].
Defined.

Lemma points_on_grid_lines_witness :
  map x (getCurvePoints [3; 99; 41]) = [20; 60; 100].
Proof.
  apply (points_on_grid_lines [3; 99; 41]). cbn. lia.
Defined.

Lemma fill_follows_stroke_witness :
  fillPath [mkPoint 20 180; mkPoint 60 140]
  = [MoveTo 20 180; LineTo 20 180; BezierCurveTo 40 180 40 140 60 140;
     LineTo 180 180; ClosePath].
Proof.
  apply (proj1 (fill_follows_stroke [mkPoint 20 180; mkPoint 60 140])
           (mkPoint 20 180) (mkPoint 60 140) []).
  reflexivity.
Defined.

End WidgetGeometryWitnesses.

(** ** The application state *)

Module AppFacts.
Import App.

Lemma run_step (st : State) (events : list Event) (P : State -> Prop) :
  P st -> (forall s e, In e events -> P s -> P (step s e)) ->
  P (run st events).
Proof.
  unfold run. revert st.
  induction events as [|e rest IH]; intros st H0 Hstep; [exact H0|].
  cbn [fold_left]. apply IH.
  - apply Hstep; [left; reflexivity|exact H0].
  - intros s e' He'. apply Hstep. right. exact He'.
Qed.

Lemma zoom_step (st : State) (e : Event) :
  In (zoom st) zoomLevels -> In (zoom (step st e)) zoomLevels.
Proof.
  intros H. destruct st as [im adj sb z]. cbn [zoom] in H.
  destruct e as [img|f v|n| | | |]; cbn [step withAdjustments zoom];
    try exact H.
  - destruct (nth_error underwaterPresets n); exact H.
  - unfold zoomOut. cbn [image zoom]. destruct im as [img|]; [|exact H].
    unfold zoomLevels in H. cbn [In] in H.
    repeat (destruct H as [<- | H]; [vm_compute; tauto|]). contradiction.
  - unfold zoomIn. cbn [image zoom]. destruct im as [img|]; [|exact H].
    unfold zoomLevels in H. cbn [In] in H.
    repeat (destruct H as [<- | H]; [vm_compute; tauto|]). contradiction.
Qed.

(** X20. The zoom is always one of 25, 50, ..., 200 percent: whatever the user
    does, starting from the initial 100, the two buttons never take it
    below 25 or above 200 or off the 25-step grid. *)
Theorem zoom_levels (events : list Event) :
  In (zoom (run initialState events)) zoomLevels /\
  (25 <=? zoom (run initialState events)) = true /\
  (zoom (run initialState events) <=? 200) = true.
Proof.
  assert (H : In (zoom (run initialState events)) zoomLevels).
  { apply (run_step initialState events (fun s => In (zoom s) zoomLevels)).
    - vm_compute. tauto.
    - intros s e _. apply zoom_step. }
  split; [exact H|].
  unfold zoomLevels in H. cbn [In] in H.
  repeat (destruct H as [<- | H]; [split; reflexivity|]). contradiction.
Qed.

(** X21. Zooming in and then out, or out and then in, returns to the same
    state whenever the first button is enabled. *)
Theorem zoom_in_out (st : State) :
  image st <> None -> In (zoom st) zoomLevels ->
  ((zoom st <? 200) = true -> zoomOut (zoomIn st) = st) /\
  ((25 <? zoom st) = true -> zoomIn (zoomOut st) = st).
Proof.
  intros Him H.
  destruct st as [[img|] adj sb z]; [|exfalso; apply Him; reflexivity].
  cbn [zoom] in *. unfold zoomLevels in H. cbn [In] in H.
  repeat (destruct H as [<- | H];
          [split; intros Hlt; try discriminate Hlt; reflexivity|]).
  contradiction.
Qed.

Lemma untouched_step (st : State) (e : Event) :
  untouchedFields (adjustments st) ->
  untouchedFields (adjustments (step st e)).
Proof.
  intros H. destruct st as [im adj sb z]. cbn [adjustments] in H.
  destruct e as [img|f v|n| | | |]; cbn [step withAdjustments adjustments];
    try exact H.
  - destruct adj. destruct f; exact H.
  - destruct n as [|[|[|[|n]]]];
      cbn [nth_error underwaterPresets withAdjustments adjustments];
      try exact H; repeat split.
  - repeat split.
  - unfold zoomOut. cbn [image zoom].
    destruct im; [destruct (z <=? 25)|]; exact H.
  - unfold zoomIn. cbn [image zoom].
    destruct im; [destruct (200 <=? z)|]; exact H.
Qed.

(** X22. Fields without a control never change: in every state the page can
    reach, the four curves are the identity ramp and the seven scalars
    that have no slider and appear in no preset (selective yellow, green
    and magenta, saturation green, cyan, blue and magenta) are 0. *)
Theorem fields_without_control (events : list Event) :
  untouchedFields (adjustments (run initialState events)).
Proof.
  apply (run_step initialState events
           (fun s => untouchedFields (adjustments s))).
  - repeat split.
  - intros s e _. apply untouched_step.
Qed.

Lemma slider_step (st : State) (e : Event) :
  (forall field value, e = SliderChange field value ->
                       inSlider value = true) ->
  allInSlider (adjustments st) -> allInSlider (adjustments (step st e)).
Proof.
  intros He H. destruct st as [im adj sb z]. cbn [adjustments] in H.
  destruct e as [img|f v|n| | | |]; cbn [step withAdjustments adjustments];
    try exact H.
  - specialize (He f v eq_refl). intros g. specialize (H g).
    destruct adj. destruct f, g; cbn in *; assumption.
  - destruct n as [|[|[|[|n]]]];
      cbn [nth_error underwaterPresets withAdjustments adjustments];
      try exact H; intros g; destruct g; reflexivity.
  - intros g; destruct g; reflexivity.
  - unfold zoomOut. cbn [image zoom].
    destruct im; [destruct (z <=? 25)|]; exact H.
  - unfold zoomIn. cbn [image zoom].
    destruct im; [destruct (200 <=? z)|]; exact H.
Qed.

(** X23. If every slider move delivers a value within [-100, 100], then after
    any sequence of slider moves, preset clicks and resets every one of
    the sixteen sliders shows a value within [-100, 100]: the presets and
    the defaults fit the sliders. *)
Theorem sliders_stay_in_range (events : list Event) :
  slidersInRange events ->
  forall field,
    inSlider (getField field (adjustments (run initialState events))) = true.
Proof.
  intros Hev.
  apply (run_step initialState events (fun s => allInSlider (adjustments s))).
  - intros g; destruct g; reflexivity.
  - intros s e He. apply slider_step. intros f v ->. exact (Hev f v He).
Qed.

(** X24. Each slider sets the field it shows and no other: after a move of the
    slider of [field] to [value], that slider shows [value], every other
    slider shows what it showed, and the curves are untouched. *)
Theorem slider_sets_its_field (field : Field) (value : float)
    (prev : ColorAdjustments) :
  getField field (setField field value prev) = value /\
  (forall other, other <> field ->
                 getField other (setField field value prev)
                 = getField other prev) /\
  redCurve (setField field value prev) = redCurve prev /\
  greenCurve (setField field value prev) = greenCurve prev /\
  blueCurve (setField field value prev) = blueCurve prev /\
  rgbCurve (setField field value prev) = rgbCurve prev.
Proof.
  destruct prev. split; [destruct field; reflexivity|].
  split; [|destruct field; repeat split].
  intros other Hne. destruct field, other; try reflexivity; congruence.
Qed.

Lemma pixelLoop_default (d : list Z) :
  validBuffer d -> pixelLoop defaultAdjustments d = d.
Proof.
  unfold validBuffer.
  induction d as [|r|r g|r g b|r g b a rest IH] using list_ind4;
    intros Hv; cbn [pixelLoop]; rewrite ?adjustPixel_default;
    repeat match goal with
           | H : Forall _ (_ :: _) |- _ =>
               apply Forall_cons_iff in H; destruct H
           end;
    rewrite ?store_load by assumption; try reflexivity.
  rewrite IH by assumption. reflexivity.
Qed.

(** X25. Reset brings the picture back: once an image of valid bytes is
    loaded, after a click on Reset the canvas shows the source image,
    byte for byte, whether the before view is on or off and whatever the
    adjustments were. *)
Theorem reset_restores_image (st : State) (img canvas : Bitmap) :
  image st = Some img -> validBuffer (data img) ->
  adjustments (step st ResetAdjustments) = defaultAdjustments /\
  render (step st ResetAdjustments) canvas = img.
Proof.
  intros Him Hv. split; [reflexivity|].
  unfold render. cbn [step withAdjustments image showBefore adjustments].
  rewrite Him. unfold applyAdjustments. cbn [width height data].
  destruct (showBefore st); cbn [negb].
  - now destruct img.
  - rewrite (pixelLoop_default _ Hv). now destruct img.
Qed.

End AppFacts.

Module AppWitnesses.
Import App AppFacts.

Lemma zoom_in_out_witness :
  zoomOut (zoomIn (mkState (Some (mkBitmap 1 1 [1; 2; 3; 4]%Z))
                           defaultAdjustments false 175))
  = mkState (Some (mkBitmap 1 1 [1; 2; 3; 4]%Z)) defaultAdjustments false 175.
Proof.
  apply (zoom_in_out (mkState (Some (mkBitmap 1 1 [1; 2; 3; 4]%Z))
                              defaultAdjustments false 175)).
  - discriminate.
  - vm_compute. tauto.
  - reflexivity.
Defined.

Lemma sliders_stay_in_range_witness :
  inSlider (getField FShadows
              (adjustments
                 (run initialState
                      [SliderChange FTint (-40); ApplyPreset 1;
                       SliderChange FWhites 100]))) = true.
Proof.
  apply (sliders_stay_in_range
           [SliderChange FTint (-40); ApplyPreset 1;
            SliderChange FWhites 100]).
  intros f v [H | [H | [H | []]]]; try discriminate H;
    injection H as <- <-; reflexivity.
Defined.

Lemma slider_sets_its_field_witness :
  getField FTint (setField FContrast 30 tropicalBlue) = -10.
Proof.
  apply (slider_sets_its_field FContrast 30 tropicalBlue). discriminate.
Defined.

Lemma reset_restores_image_witness :
  render (step (mkState (Some (mkBitmap 1 1 [9; 8; 7; 255]%Z)) coralReef
                        false 100) ResetAdjustments)
         (mkBitmap 0 0 [])
  = mkBitmap 1 1 [9; 8; 7; 255]%Z.
Proof.
  apply (reset_restores_image
           (mkState (Some (mkBitmap 1 1 [9; 8; 7; 255]%Z)) coralReef false 100)
           (mkBitmap 1 1 [9; 8; 7; 255]%Z) (mkBitmap 0 0 [])).
  - reflexivity.
  - repeat constructor; unfold isByte; lia.
Defined.

End AppWitnesses.
